(** * tubular.asgard: blue/green deployment through Asgard

    A shallow embedding of [src/tubular/asgard.py] (Python 2) and the
    properties of its task poller, cluster directory, ASG lifecycle
    operations and [deploy] orchestration.

    Modelling conventions.
    - The outside world (the Asgard HTTP backend reached through
      [requests], the [ec2] module, the wall clock, [time.sleep] and the
      iteration order of Python 2 dictionaries) is an [environment]: a
      deterministic oracle that answers each call from the history of the
      calls made so far.
    - The program is written in a state-and-exception monad over a [world]
      that holds the clock (microseconds, as [datetime] has them) and the
      trace of calls made, oldest first.  A function is "invoked" when the
      request it starts with appears in the trace.
    - Decoded JSON documents are given the shape the code reads, with an
      [option] for every key the code looks up ([None]: the key is absent,
      the lookup raises).  Text is ASCII, so [str.format] is total, and the
      [LOG] calls, which only format and write log records, are left out.
    - A [datetime] is the number of microseconds since [datetime.min]
      (0001-01-01 00:00:00); the sum of a [datetime] and a [timedelta]
      raises [OverflowError] outside the range of either type, as in
      Python. *)

From Stdlib Require Import String Ascii List ZArith NArith Bool Lia Permutation.
Import ListNotations.

#[local] Open Scope string_scope.
#[local] Open Scope Z_scope.
#[local] Open Scope list_scope.

(** ** Python values *)

(** [s.endswith(suffix)]. *)
Definition endswith (s suffix : string) : bool :=
  let n := String.length s in
  let k := String.length suffix in
  (k <=? n)%nat && String.eqb (substring (n - k) k s) suffix.

(** The line feed of the ["\n"] in the error messages. *)
Definition nl : string := String (ascii_of_nat 10) EmptyString.

(** [x in xs] for a list of strings. *)
Definition py_in (x : string) (xs : list string) : bool :=
  existsb (String.eqb x) xs.

(** A [dict] with string keys: the items in insertion order, keys unique.
    The order in which Python 2 iterates over it is the environment's. *)
Definition dict (V : Type) : Type := list (string * V).

Fixpoint dict_get {V} (k : string) (d : dict V) : option V :=
  match d with
  | [] => None
  | (k', v) :: d' => if String.eqb k k' then Some v else dict_get k d'
  end.

(** [d[k] = v]. *)
Fixpoint dict_set {V} (k : string) (v : V) (d : dict V) : dict V :=
  match d with
  | [] => [(k, v)]
  | (k', v') :: d' =>
      if String.eqb k k' then (k, v) :: d' else (k', v') :: dict_set k v d'
  end.

(** [datetime.max] (9999-12-31 23:59:59.999999), in microseconds since
    [datetime.min]: 3652059 days less a microsecond. *)
Definition datetime_max : Z := 3652059 * 86400 * 1000000 - 1.

(** [timedelta.max.days]. *)
Definition timedelta_max_days : Z := 999999999.

(** [timedelta(seconds=timeout)] is a [timedelta] (its days, the floor of
    [timeout / 86400], are within [timedelta.max.days] of zero) and its
    sum with the datetime [t] is a [datetime]. *)
Definition in_range (t timeout : Z) : bool :=
  (Z.abs (timeout / 86400) <=? timedelta_max_days) &&
  (0 <=? t + 1000000 * timeout) &&
  (t + 1000000 * timeout <=? datetime_max).

(** The exceptions [asgard.py] raises from the module [exception], each
    with the message it is built with (the message of [BackendDataError]
    prints a Python value and is left out), the built-in ones its lookups
    raise, and those that come out of the libraries ([requests], the JSON
    decoder, [ec2]). *)
Inductive exn : Type :=
| TimeoutException (msg : string)
| BackendError (msg : string)
| BackendDataError
| KeyError (key : string)
| IndexError
| OverflowError
| ForeignError (name : string).

(** Modelled from the spec: the value [ec2.edc_for_ami] returns, which
    [ec2.py] (not part of the sources at hand) defines: the
    environment-deployment-cluster tag triple of an image. *)
Record EDC : Type := {
  edc_environment : string;
  edc_deployment : string;
  edc_cluster : string
}.

(** The value bound to ["name"] in the payload of [disable_asg]: [deploy]
    passes a string in its rollback paths and a list of strings when it
    retires the old groups. *)
Inductive name_arg : Type :=
| PStr (s : string)
| PList (l : list string).

(** How [requests] form-encodes [{"name": v}]: one field per element when
    the value is a list. *)
Definition form_encode (v : name_arg) : list (string * string) :=
  match v with
  | PStr s => [("name", s)]
  | PList l => map (fun s => ("name", s)) l
  end.

(** ** Decoded JSON documents *)

(** An entry of [/cluster/list.json]. *)
Record cluster_record : Type := {
  rec_cluster : option string;
  rec_autoScalingGroups : option (list string)
}.

(** An entry of [/cluster/show/<cluster>.json]. *)
Record asg_record : Type := {
  rec_autoScalingGroupName : option string
}.

(** [/autoScaling/show/<asg>.json]. *)
Record group_info : Type := {
  rec_loadBalancerNames : option (list string)
}.

Record asg_info : Type := {
  rec_group : option group_info
}.

(** The status document of a task: a JSON object with string values. *)
Definition payload : Type := list (string * string).

(** ** The environment *)

Inductive call : Type :=
| CUtcnow
| CSleep (secs : Z)
| CEdcForAmi (ami_id : string)
| CAsgsForEdc (edc : EDC)
| CWaitForInService (asgs : list string) (timeout : Z)
| CWaitForHealthyElbs (elbs : list string) (timeout : Z)
| CGetClusterList
| CGetClusterInfo (cluster : string)
| CGetAsgInfo (asg : string)
| CGetTask (task_url : string)
| CPostNewAsg (cluster ami_id : string)
| CPostActivate (asg : string)
| CPostDeactivate (asg : name_arg).

Definition history : Type := list call.

(** What a call gives back: [inl e] when it raises [e]. *)
Definition reply (A : Type) : Type := (exn + A)%type.

Record environment : Type := {
  (** the order in which a dict with the given keys (in insertion order)
      is iterated *)
  dict_order : list string -> list string;
  (** every key is visited, once *)
  dict_order_perm :
    forall keys, NoDup keys -> Permutation (dict_order keys) keys;
  (** [int(os.environ.get("ASGARD_WAIT_TIMEOUT", 300))] *)
  ASGARD_WAIT_TIMEOUT : Z;
  (** microseconds that pass while a call is made, on top of the second(s)
      a [time.sleep] lasts *)
  elapsed : history -> call -> N;
  (** the functions of the module [ec2], whose file is not among the
      sources: they are known by their calls in [deploy] *)
  ec2_edc_for_ami : history -> string -> reply EDC;
  ec2_asgs_for_edc : history -> EDC -> reply (list string);
  ec2_wait_for_in_service : history -> list string -> Z -> reply unit;
  ec2_wait_for_healthy_elbs : history -> list string -> Z -> reply unit;
  (** [requests.get(CLUSTER_LIST_URL, ...).json()] *)
  cluster_list_json : history -> reply (list cluster_record);
  (** [requests.get(CLUSTER_INFO_URL.format(cluster), ...).json()] *)
  cluster_info_json : history -> string -> reply (list asg_record);
  (** [requests.get(ASG_INFO_URL.format(asg), ...).json()] *)
  asg_info_json : history -> string -> reply asg_info;
  (** [requests.get(task_url, ...).json()] *)
  task_json : history -> string -> reply payload;
  (** [requests.post(NEW_ASG_URL, ...).url] *)
  post_new_asg_url : history -> string -> string -> reply string;
  (** [requests.post(ASG_ACTIVATE_URL, ...).url] *)
  post_activate_url : history -> string -> reply string;
  (** [requests.post(ASG_DEACTIVATE_URL, ...).url] *)
  post_deactivate_url : history -> name_arg -> reply string
}.

(** ** The monad *)

Record world : Type := {
  now : Z;
  trace : history
}.

Inductive outcome (A : Type) : Type :=
| Ret (a : A)
| Raise (e : exn)
| Diverge.

Arguments Ret {A} a.
Arguments Raise {A} e.
Arguments Diverge {A}.

Definition M (A : Type) : Type := world -> outcome A * world.

Definition ret {A} (a : A) : M A := fun w => (Ret a, w).

Definition raise {A} (e : exn) : M A := fun w => (Raise e, w).

Definition diverge {A} : M A := fun w => (Diverge, w).

Definition bind {A B} (m : M A) (f : A -> M B) : M B :=
  fun w =>
    match m w with
    | (Ret a, w') => f a w'
    | (Raise e, w') => (Raise e, w')
    | (Diverge, w') => (Diverge, w')
    end.

(** [try: m  except: handler]; a bare [raise] in the handler is
    [raise e]. *)
Definition try_except {A} (m : M A) (handler : exn -> M A) : M A :=
  fun w =>
    match m w with
    | (Raise e, w') => handler e w'
    | r => r
    end.

Declare Scope monad_scope.
Delimit Scope monad_scope with monad.
Notation "x <- m ;; k" := (bind m (fun x => k))
  (at level 61, m at next level, right associativity) : monad_scope.
Notation "m ;; k" := (bind m (fun _ => k))
  (at level 61, right associativity) : monad_scope.
#[local] Open Scope monad_scope.

(** [for x in xs: s = body(s, x)], left when the body raises. *)
Fixpoint for_each {S X} (body : S -> X -> M S) (xs : list X) (s : S) : M S :=
  match xs with
  | [] => ret s
  | x :: xs' => s' <- body s x ;; for_each body xs' s'
  end.

Definition of_reply {A} (r : reply A) : outcome A :=
  match r with
  | inl e => Raise e
  | inr a => Ret a
  end.

(** A computation that makes no call. *)
Definition pure {A} (r : reply A) : M A := fun w => (of_reply r, w).

Definition last_item (l : list string) : M string :=
  match rev l with
  | [] => raise IndexError
  | x :: _ => ret x
  end.

(** [d[key]] on a decoded JSON object. *)
Definition getitem (d : payload) (key : string) : M string :=
  match dict_get key d with
  | Some v => ret v
  | None => raise (KeyError key)
  end.

Section Asgard.

Variable env : environment.

(** The clock and the trace after the call [c], [secs] seconds of which
    are slept. *)
Definition tick (c : call) (secs : Z) (w : world) : world :=
  {| now := now w + 1000000 * secs + Z.of_N (elapsed env (trace w) c);
     trace := trace w ++ [c] |}.

(** Make the call [c]; the environment answers from the history before
    it. *)
Definition perform {A} (c : call) (answer : history -> reply A) : M A :=
  fun w => (of_reply (answer (trace w)), tick c 0 w).

(** [datetime.utcnow()], in microseconds. *)
Definition utcnow : M Z :=
  fun w => let w' := tick CUtcnow 0 w in (Ret (now w'), w').

(** [time.sleep(secs)]. *)
Definition sleep (secs : Z) : M unit :=
  fun w => (Ret tt, tick (CSleep secs) secs w).

(** ** Iteration over dictionaries *)

Definition dict_items {V} (d : dict V) : list (string * V) :=
  flat_map
    (fun k => match dict_get k d with Some v => [(k, v)] | None => [] end)
    (dict_order env (map fst d)).

Definition dict_keys {V} (d : dict V) : list string := map fst (dict_items d).

Definition dict_values {V} (d : dict V) : list V := map snd (dict_items d).

(** ** Cluster directory *)

(** The loop of [clusters_for_asgs] over the decoded cluster listing. *)
Fixpoint relevant_clusters_of (asgs : list string)
    (cluster_json : list cluster_record)
    (relevant_clusters : dict (list string)) : reply (dict (list string)) :=
  match cluster_json with
  | [] => inr relevant_clusters
  | cluster :: rest =>
      match rec_autoScalingGroups cluster, rec_cluster cluster with
      | Some groups, Some name =>
          relevant_clusters_of asgs rest
            (if existsb (fun asg => py_in asg asgs) groups
             then dict_set name groups relevant_clusters
             else relevant_clusters)
      | _, _ => inl BackendDataError
      end
  end.

Definition clusters_for_asgs (asgs : list string) : M (dict (list string)) :=
  cluster_json <- perform CGetClusterList (cluster_list_json env) ;;
  pure (relevant_clusters_of asgs cluster_json []).

(** [map(lambda x: x['autoScalingGroupName'], asgs)]; [None] when a lookup
    raises. *)
Fixpoint asg_names (asgs : list asg_record) : option (list string) :=
  match asgs with
  | [] => Some []
  | x :: rest =>
      match rec_autoScalingGroupName x, asg_names rest with
      | Some name, Some names => Some (name :: names)
      | _, _ => None
      end
  end.

Definition asgs_for_cluster (cluster : string) : M (list string) :=
  asgs <- perform (CGetClusterInfo cluster)
            (fun h => cluster_info_json env h cluster) ;;
  match asg_names asgs with
  | Some names => ret names
  | None => raise BackendDataError
  end.

(** ** Task poller *)

Definition terminal (status : string) : bool :=
  String.eqb status "completed" || String.eqb status "failed".

Definition timed_out_msg (task_url : string) : string :=
  ("Timedout while waiting for task " ++ task_url)%string.

(** The [while] loop of [wait_for_task_completion]; [fuel] bounds the
    number of times its condition is evaluated. *)
Fixpoint wait_loop (fuel : nat) (task_url : string) (end_time : Z)
    : M payload :=
  match fuel with
  | O => diverge
  | S fuel' =>
      t <- utcnow ;;
      if end_time >? t then
        response <- perform (CGetTask task_url)
                      (fun h => task_json env h task_url) ;;
        status <- getitem response "status" ;;
        if terminal status then ret response
        else sleep 1 ;; wait_loop fuel' task_url end_time
      else raise (TimeoutException (timed_out_msg task_url))
  end.

Definition json_url (task_url : string) : string :=
  if endswith task_url ".json" then task_url
  else (task_url ++ ".json")%string.

(** [t + timedelta(seconds=timeout)]. *)
Definition plus_seconds (t timeout : Z) : M Z :=
  if in_range t timeout then ret (t + 1000000 * timeout)
  else raise OverflowError.

(** Every turn of the loop sleeps a second, so the condition is evaluated
    at most [timeout + 1] times. *)
Definition wait_for_task_completion (task_url : string) (timeout : Z)
    : M payload :=
  let task_url := json_url task_url in
  t <- utcnow ;;
  end_time <- plus_seconds t timeout ;;
  wait_loop (S (Z.to_nat timeout)) task_url end_time.

(** ** ASG lifecycle *)

Definition new_asg_failed_msg (log : string) : string :=
  ("Failure during new ASG creation. Task Log: " ++ nl ++ log)%string.

Definition enable_failed_msg (log : string) : string :=
  ("Failure while enabling ASG. Task Log: " ++ nl ++ log)%string.

Definition disable_failed_msg (log : string) : string :=
  ("Failure while disabling ASG. Task Log: " ++ nl ++ log)%string.

(** [if response['status'] == 'failed': raise BackendError(...)]. *)
Definition check_task (msg : string -> string) (response : payload) : M unit :=
  status <- getitem response "status" ;;
  if String.eqb status "failed" then
    log <- getitem response "log" ;;
    raise (BackendError (msg log))
  else ret tt.

Definition new_asg (cluster ami_id : string) : M string :=
  task_url <- perform (CPostNewAsg cluster ami_id)
                (fun h => post_new_asg_url env h cluster ami_id) ;;
  response <- wait_for_task_completion task_url (ASGARD_WAIT_TIMEOUT env) ;;
  check_task new_asg_failed_msg response ;;
  asgs <- asgs_for_cluster cluster ;;
  last_item asgs.

Definition enable_asg (asg : string) : M unit :=
  task_url <- perform (CPostActivate asg)
                (fun h => post_activate_url env h asg) ;;
  task_status <- wait_for_task_completion task_url 301 ;;
  check_task enable_failed_msg task_status.

Definition disable_asg (asg : name_arg) : M unit :=
  task_url <- perform (CPostDeactivate asg)
                (fun h => post_deactivate_url env h asg) ;;
  task_status <- wait_for_task_completion task_url 300 ;;
  check_task disable_failed_msg task_status.

(** ** Deployment *)

(** [response.json()['group']['loadBalancerNames']]. *)
Definition load_balancer_names (info : asg_info) : M (list string) :=
  match rec_group info with
  | None => raise (KeyError "group")
  | Some group =>
      match rec_loadBalancerNames group with
      | None => raise (KeyError "loadBalancerNames")
      | Some elbs => ret elbs
      end
  end.

(** Lines 218-226: the clusters of the groups that carry the image's
    tags. *)
Definition discover (ami_id : string) : M (dict (list string)) :=
  edc <- perform (CEdcForAmi ami_id) (fun h => ec2_edc_for_ami env h ami_id) ;;
  asgs <- perform (CAsgsForEdc edc) (fun h => ec2_asgs_for_edc env h edc) ;;
  clusters_for_asgs asgs.

(** Lines 230-236, the body of the first loop. *)
Definition create_one (ami_id : string) (new_asgs : dict string)
    (cluster : string) : M (dict string) :=
  try_except
    (asg <- new_asg cluster ami_id ;; ret (dict_set cluster asg new_asgs))
    (fun e => raise e).

Definition create_all (ami_id : string) (clusters : list string)
    : M (dict string) :=
  for_each (create_one ami_id) clusters [].

(** Lines 245-249, the [try] block of the second loop. *)
Definition enable_and_lookup (elbs_to_monitor : list string) (asg : string)
    : M (list string) :=
  enable_asg asg ;;
  response <- perform (CGetAsgInfo asg) (fun h => asg_info_json env h asg) ;;
  elbs <- load_balancer_names response ;;
  ret (elbs_to_monitor ++ elbs).

(** Lines 244-254, the body of the second loop. *)
Definition activate_one (elbs_to_monitor : list string)
    (item : string * string) : M (list string) :=
  let asg := snd item in
  try_except
    (enable_and_lookup elbs_to_monitor asg)
    (fun e => disable_asg (PStr asg) ;; raise e).

Definition activate_all (new_asgs : dict string) : M (list string) :=
  for_each activate_one (dict_items new_asgs) [].

(** Lines 266-267. *)
Definition pull_out (items : list (string * string)) : M unit :=
  for_each (fun _ item => disable_asg (PStr (snd item))) items tt.

(** [ec2.wait_for_in_service(asgs, timeout)]. *)
Definition wait_for_in_service (asgs : list string) (timeout : Z) : M unit :=
  perform (CWaitForInService asgs timeout)
    (fun h => ec2_wait_for_in_service env h asgs timeout).

(** [ec2.wait_for_healthy_elbs(elbs, timeout)]. *)
Definition wait_for_healthy_elbs (elbs : list string) (timeout : Z) : M unit :=
  perform (CWaitForHealthyElbs elbs timeout)
    (fun h => ec2_wait_for_healthy_elbs env h elbs timeout).

(** Lines 261-268. *)
Definition await_elbs (new_asgs : dict string) (elbs_to_monitor : list string)
    : M unit :=
  try_except
    (wait_for_healthy_elbs elbs_to_monitor 600)
    (fun e => pull_out (dict_items new_asgs) ;; raise e).

(** Lines 272-273: the loop variable [asg] is bound to the values of
    [existing_clusters], which are lists. *)
Definition retire (items : list (string * list string)) : M unit :=
  for_each (fun _ item => disable_asg (PList (snd item))) items tt.

Definition deploy (ami_id : string) : M unit :=
  existing_clusters <- discover ami_id ;;
  new_asgs <- create_all ami_id (dict_keys existing_clusters) ;;
  wait_for_in_service (dict_values new_asgs) 300 ;;
  elbs_to_monitor <- activate_all new_asgs ;;
  await_elbs new_asgs elbs_to_monitor ;;
  retire (dict_items existing_clusters).

End Asgard.

(** ** Observations on traces *)

(** The calls made between the worlds [w] and [w']. *)
Definition emitted (w w' : world) : history :=
  skipn (length (trace w)) (trace w').

(** The arguments of the invocations of [disable_asg], in order. *)
Definition deactivations (t : history) : list name_arg :=
  flat_map (fun c => match c with CPostDeactivate a => [a] | _ => [] end) t.

(** The arguments of the invocations of [enable_asg]. *)
Definition activations (t : history) : list string :=
  flat_map (fun c => match c with CPostActivate a => [a] | _ => [] end) t.

(** The arguments of the invocations of [new_asg]. *)
Definition creations (t : history) : list (string * string) :=
  flat_map (fun c => match c with CPostNewAsg c a => [(c, a)] | _ => [] end) t.

(** The clusters whose group list was queried ([asgs_for_cluster]). *)
Definition cluster_queries (t : history) : list string :=
  flat_map (fun c => match c with CGetClusterInfo c => [c] | _ => [] end) t.

(** The status requests of the task poller. *)
Definition polls (t : history) : list string :=
  flat_map (fun c => match c with CGetTask u => [u] | _ => [] end) t.

(** The calls of the task poller. *)
Definition polling (c : call) : Prop :=
  match c with
  | CUtcnow | CSleep _ | CGetTask _ => True
  | _ => False
  end.

(** [n] turns of the polling loop that end in the sleep. *)
Fixpoint rounds (n : nat) (task_url : string) : history :=
  match n with
  | O => []
  | S n' => CUtcnow :: CGetTask task_url :: CSleep 1 :: rounds n' task_url
  end.

(** [m] only adds calls that satisfy [P] to the trace. *)
Definition emits {A} (P : call -> Prop) (m : M A) : Prop :=
  forall w, exists t, trace (snd (m w)) = trace w ++ t /\ Forall P t.

(** [m] makes no call. *)
Definition silent {A} (m : M A) : Prop := forall w, snd (m w) = w.



(** The requests that change the state of the backend. *)
Definition is_request (c : call) : bool :=
  match c with
  | CPostNewAsg _ _ | CPostActivate _ | CPostDeactivate _ => true
  | _ => false
  end.

Definition requests (t : history) : history := filter is_request t.

Definition quiet (c : call) : Prop := is_request c = false.

(** Whatever its outcome, a run of [m] adds the call [c] to the trace and
    then only calls that satisfy [P]. *)
Definition starts_with {A} (c : call) (P : call -> Prop) (m : M A) : Prop :=
  forall w, exists t,
    trace (snd (m w)) = trace w ++ c :: t /\ Forall P t.

(** [m] has an outcome in every world: its loops run out of turns before
    they run out of fuel. *)
Definition total {A} (m : M A) : Prop := forall w, fst (m w) <> Diverge.


(** The poll made after the history [h] finds the task still running. *)
Definition running_at (env : environment) (h : history) (task_url : string)
    : Prop :=
  exists response status,
    task_json env h task_url = inr response /\
    dict_get "status" response = Some status /\
    terminal status = false.

(** The outcome of the polling loop when the poll made after the history
    [h] ends it: the request or the lookup of the status raises, or the
    status is a final one. *)
Inductive last_poll (env : environment) (h : history) (task_url : string)
    : outcome payload -> Prop :=
| poll_raises e :
    task_json env h task_url = inl e ->
    last_poll env h task_url (Raise e)
| poll_no_status response :
    task_json env h task_url = inr response ->
    dict_get "status" response = None ->
    last_poll env h task_url (Raise (KeyError "status"))
| poll_terminal response status :
    task_json env h task_url = inr response ->
    dict_get "status" response = Some status ->
    terminal status = true ->
    last_poll env h task_url (Ret response).

(** [sub in s]. *)
Definition contains (s sub : string) : Prop :=
  exists before after, s = (before ++ sub ++ after)%string.

(** A record of the cluster listing that has both keys. *)
Definition well_formed (r : cluster_record) : Prop :=
  rec_cluster r <> None /\ rec_autoScalingGroups r <> None.

(** The record names the cluster [c] with the groups [groups], one of which
    is among [asgs]. *)
Definition matching (asgs : list string) (c : string) (groups : list string)
    (r : cluster_record) : Prop :=
  rec_cluster r = Some c /\ rec_autoScalingGroups r = Some groups /\
  exists asg, In asg groups /\ In asg asgs.

(** Every retirement a run of [m] requests (a deactivation whose argument
    is a list of groups) comes after a wait for the load balancers, with a
    timeout of 600 seconds, that returned. *)
Definition retire_gated (env : environment) {A} (m : M A) : Prop :=
  forall w, exists t,
    trace (snd (m w)) = trace w ++ t /\
    forall pre groups post,
      t = pre ++ CPostDeactivate (PList groups) :: post ->
      exists before elbs after,
        pre = before ++ CWaitForHealthyElbs elbs 600 :: after /\
        ec2_wait_for_healthy_elbs env (trace w ++ before) elbs 600 = inr tt.

(** Every deactivation of a single group in [t] comes after a request to
    activate that group. *)
Definition served (t : history) : Prop :=
  forall pre asg post,
    t = pre ++ CPostDeactivate (PStr asg) :: post ->
    In (CPostActivate asg) pre.

(** The runs of [m] add such calls to the trace. *)
Definition serving {A} (m : M A) : Prop :=
  forall w, exists t, trace (snd (m w)) = trace w ++ t /\ served t.

(** A call that is no deactivation. *)
Definition keeps (c : call) : Prop := forall asg, c <> CPostDeactivate asg.

(** A call that does not retire the groups of a cluster. *)
Definition no_retirement (c : call) : Prop :=
  forall groups, c <> CPostDeactivate (PList groups).

(** A record of the cluster listing that lacks one of the two keys. *)
Definition malformed (r : cluster_record) : Prop :=
  rec_cluster r = None \/ rec_autoScalingGroups r = None.

(** The load balancers the document [info] lists for a group. *)
Definition elbs_of (info : asg_info) (elbs : list string) : Prop :=
  exists group,
    rec_group info = Some group /\ rec_loadBalancerNames group = Some elbs.

(** ** Scripted environments

    Backends that answer from a fixed script, for running the model on the
    scenarios of the specification. *)

Module Scenario.

Definition the_edc : EDC :=
  {| edc_environment := "prod"; edc_deployment := "edx";
     edc_cluster := "edxapp" |}.

Definition completed : payload := [("status", "completed")].

Definition running : payload := [("status", "running")].

Definition failed (log : string) : payload :=
  [("status", "failed"); ("log", log)].

(** Has a new group been requested for [cluster]? *)
Definition created (h : history) (cluster : string) : bool :=
  existsb
    (fun c =>
       match c with
       | CPostNewAsg cluster' _ => String.eqb cluster' cluster
       | _ => false
       end) h.

Definition listed_asgs (listing : list cluster_record) (cluster : string)
    : list string :=
  flat_map
    (fun r =>
       match rec_cluster r, rec_autoScalingGroups r with
       | Some c, Some l => if String.eqb c cluster then l else []
       | _, _ => []
       end) listing.

Definition name_of (v : name_arg) : string :=
  match v with
  | PStr s => s
  | PList l => String.concat "," l
  end.

Definition record_of (name : string) : asg_record :=
  {| rec_autoScalingGroupName := Some name |}.

(** A backend over the cluster listing [listing] in which a created group
    of cluster [c] is named [c-v011], every group sits behind the load
    balancer [<group>-elb], tasks answer as [task] says and the load
    balancer health gate as [elb_gate]; no time passes but in sleeps. *)
Definition scripted (listing : list cluster_record) (requested : list string)
    (task : history -> string -> reply payload) (elb_gate : reply unit)
    : environment :=
  {| dict_order := fun keys => keys;
     dict_order_perm := fun keys _ => Permutation_refl keys;
     ASGARD_WAIT_TIMEOUT := 300;
     elapsed := fun _ _ => 0%N;
     ec2_edc_for_ami := fun _ _ => inr the_edc;
     ec2_asgs_for_edc := fun _ _ => inr requested;
     ec2_wait_for_in_service := fun _ _ _ => inr tt;
     ec2_wait_for_healthy_elbs := fun _ _ _ => elb_gate;
     cluster_list_json := fun _ => inr listing;
     cluster_info_json := fun h cluster =>
       inr (map record_of
              (listed_asgs listing cluster ++
               (if created h cluster then [(cluster ++ "-v011")%string]
                else [])));
     asg_info_json := fun _ asg =>
       inr {| rec_group :=
                Some {| rec_loadBalancerNames :=
                          Some [(asg ++ "-elb")%string] |} |};
     task_json := task;
     post_new_asg_url := fun _ cluster _ =>
       inr ("task/create/" ++ cluster)%string;
     post_activate_url := fun _ asg => inr ("task/activate/" ++ asg)%string;
     post_deactivate_url := fun _ asg =>
       inr ("task/deactivate/" ++ name_of asg)%string |}.

Definition cluster_of (name : string) (asgs : list string) : cluster_record :=
  {| rec_cluster := Some name; rec_autoScalingGroups := Some asgs |}.

Definition start : world := {| now := 0; trace := [] |}.

(** Every task has completed by the time it is polled, but those whose
    status document is at one of the [failing] addresses, which fail with
    the log ["boom"]. *)
Definition tasks (failing : list string) : history -> string -> reply payload :=
  fun _ task_url =>
    inr (if py_in task_url failing then failed "boom" else completed).

(** One cluster with one old group. *)
Definition edxapp : list cluster_record :=
  [cluster_of "edx-edxapp" ["edx-edxapp-v010"]].

(** One cluster with two old groups. *)
Definition edxapp2 : list cluster_record :=
  [cluster_of "edx-edxapp" ["edx-edxapp-v009"; "edx-edxapp-v010"]].

(** Two clusters. *)
Definition edxapp_worker : list cluster_record :=
  [cluster_of "edx-edxapp" ["edx-edxapp-v010"];
   cluster_of "edx-worker" ["edx-worker-v004"]].

Definition gate_timeout : exn :=
  TimeoutException "Timed out waiting for ELBs".

(** The groups that carry the tags of the image, in the two clusters. *)
Definition two_clusters : list string :=
  ["edx-edxapp-v010"; "edx-worker-v004"].

(** A backend whose tasks keep running. *)
Definition never_done : environment :=
  scripted [] [] (fun _ _ => inr running) (inr tt).


(** Two clusters; the activation of the new group of the second fails, and
    so does its deactivation. *)
Definition failing_rollback : environment :=
  scripted edxapp_worker two_clusters
    (tasks ["task/activate/edx-worker-v011.json";
            "task/deactivate/edx-worker-v011.json"]) (inr tt).

(** [env] with another answer to the requests for the groups of a
    cluster. *)
Definition with_cluster_info (env : environment)
    (answer : history -> string -> reply (list asg_record)) : environment :=
  {| dict_order := dict_order env;
     dict_order_perm := dict_order_perm env;
     ASGARD_WAIT_TIMEOUT := ASGARD_WAIT_TIMEOUT env;
     elapsed := elapsed env;
     ec2_edc_for_ami := ec2_edc_for_ami env;
     ec2_asgs_for_edc := ec2_asgs_for_edc env;
     ec2_wait_for_in_service := ec2_wait_for_in_service env;
     ec2_wait_for_healthy_elbs := ec2_wait_for_healthy_elbs env;
     cluster_list_json := cluster_list_json env;
     cluster_info_json := answer;
     asg_info_json := asg_info_json env;
     task_json := task_json env;
     post_new_asg_url := post_new_asg_url env;
     post_activate_url := post_activate_url env;
     post_deactivate_url := post_deactivate_url env |}.

(** [env] with another answer to the requests for a new group. *)
Definition with_new_asg (env : environment)
    (answer : history -> string -> string -> reply string) : environment :=
  {| dict_order := dict_order env;
     dict_order_perm := dict_order_perm env;
     ASGARD_WAIT_TIMEOUT := ASGARD_WAIT_TIMEOUT env;
     elapsed := elapsed env;
     ec2_edc_for_ami := ec2_edc_for_ami env;
     ec2_asgs_for_edc := ec2_asgs_for_edc env;
     ec2_wait_for_in_service := ec2_wait_for_in_service env;
     ec2_wait_for_healthy_elbs := ec2_wait_for_healthy_elbs env;
     cluster_list_json := cluster_list_json env;
     cluster_info_json := cluster_info_json env;
     asg_info_json := asg_info_json env;
     task_json := task_json env;
     post_new_asg_url := answer;
     post_activate_url := post_activate_url env;
     post_deactivate_url := post_deactivate_url env |}.

(** [env] with another outcome of the wait for the instances. *)
Definition with_in_service (env : environment) (gate : reply unit)
    : environment :=
  {| dict_order := dict_order env;
     dict_order_perm := dict_order_perm env;
     ASGARD_WAIT_TIMEOUT := ASGARD_WAIT_TIMEOUT env;
     elapsed := elapsed env;
     ec2_edc_for_ami := ec2_edc_for_ami env;
     ec2_asgs_for_edc := ec2_asgs_for_edc env;
     ec2_wait_for_in_service := fun _ _ _ => gate;
     ec2_wait_for_healthy_elbs := ec2_wait_for_healthy_elbs env;
     cluster_list_json := cluster_list_json env;
     cluster_info_json := cluster_info_json env;
     asg_info_json := asg_info_json env;
     task_json := task_json env;
     post_new_asg_url := post_new_asg_url env;
     post_activate_url := post_activate_url env;
     post_deactivate_url := post_deactivate_url env |}.

Definition connection_error : exn := ForeignError "ConnectionError".

(** The first of January 2026, 739616 days after [datetime.min], with
    nothing done yet. *)
Definition today : world :=
  {| now := 739616 * 86400 * 1000000; trace := [] |}.

(** Two clusters whose group lists never show a new group, and load
    balancers that do not become healthy. *)
Definition stale_lists : environment :=
  with_cluster_info
    (scripted edxapp_worker two_clusters (tasks []) (inl gate_timeout))
    (fun _ cluster => inr (map record_of (listed_asgs edxapp_worker cluster))).

(** Both clusters healthy, every task completes. *)
Definition all_well : environment :=
  scripted edxapp_worker two_clusters (tasks []) (inr tt).

(** One cluster with one old group, every task completes. *)
Definition one_cluster : environment :=
  scripted edxapp ["edx-edxapp-v010"] (tasks []) (inr tt).

(** A listing whose second record lacks [autoScalingGroups]. *)
Definition broken_listing : list cluster_record :=
  [cluster_of "edx-edxapp" ["edx-edxapp-v010"];
   {| rec_cluster := Some "edx-worker"; rec_autoScalingGroups := None |}].

(** A listing that names the cluster [edx-edxapp] twice. *)
Definition doubled_listing : list cluster_record :=
  [cluster_of "edx-edxapp" ["edx-edxapp-v010"];
   cluster_of "edx-edxapp" ["edx-edxapp-v010"; "edx-edxapp-v011"]].

(** Tasks that fail and say nothing of it. *)
Definition failed_without_log : history -> string -> reply payload :=
  fun _ _ => inr [("status", "failed")].

End Scenario.

(** * Properties *)

(** ** Lists and dictionaries *)

Lemma py_in_In x xs : py_in x xs = true <-> In x xs.
Proof.
  unfold py_in. rewrite existsb_exists. split.
  - intros [y [Hy E]]. apply String.eqb_eq in E. now subst.
  - intros H. exists x. split; [assumption | apply String.eqb_refl].
Qed.

Lemma dict_get_set_same {V} k (v : V) d : dict_get k (dict_set k v d) = Some v.
Proof.
  induction d as [|[k' v'] d IH]; simpl.
  - now rewrite String.eqb_refl.
  - destruct (String.eqb k k') eqn:E; simpl; rewrite ?String.eqb_refl, ?E; auto.
Qed.

Lemma dict_get_set_other {V} k k' (v : V) d :
  k <> k' -> dict_get k (dict_set k' v d) = dict_get k d.
Proof.
  intros N. induction d as [|[k0 v0] d IH]; simpl.
  - apply String.eqb_neq in N. now rewrite N.
  - destruct (String.eqb k' k0) eqn:E; simpl.
    + apply String.eqb_eq in E. subst k0.
      apply String.eqb_neq in N. now rewrite N.
    + destruct (String.eqb k k0); auto.
Qed.

Lemma dict_set_keys {V} k (v : V) d :
  map fst (dict_set k v d) =
  if py_in k (map fst d) then map fst d else map fst d ++ [k].
Proof.
  unfold py_in. induction d as [|[k' v'] d IH]; simpl; auto.
  destruct (String.eqb k k') eqn:E; simpl.
  - apply String.eqb_eq in E. now subst.
  - rewrite IH. now destruct (existsb (String.eqb k) (map fst d)).
Qed.

Lemma dict_set_NoDup {V} k (v : V) d :
  NoDup (map fst d) -> NoDup (map fst (dict_set k v d)).
Proof.
  intros H. rewrite dict_set_keys.
  destruct (py_in k (map fst d)) eqn:E; auto.
  apply NoDup_app; auto.
  - repeat constructor. intros [].
  - intros x Hx [<-|[]]. apply py_in_In in Hx. congruence.
Qed.

Lemma dict_get_In {V} k (v : V) d :
  NoDup (map fst d) -> In (k, v) d -> dict_get k d = Some v.
Proof.
  induction d as [|[k' v'] d IH]; simpl; intros ND H; [contradiction|].
  inversion ND as [|? ? Hn ND']; subst.
  destruct H as [H|H].
  - inversion H; subst. now rewrite String.eqb_refl.
  - destruct (String.eqb k k') eqn:E.
    + apply String.eqb_eq in E. subst k'.
      exfalso. apply Hn. now apply (in_map fst) in H.
    + auto.
Qed.

Section Properties.

Variable env : environment.

(** Iterating over a dictionary visits each of its items once. *)
Lemma dict_items_perm {V} (d : dict V) :
  NoDup (map fst d) -> Permutation (dict_items env d) d.
Proof.
  intros ND. unfold dict_items.
  rewrite (Permutation_flat_map _ (dict_order_perm env _ ND)).
  assert (G : forall d0 : dict V, incl d0 d ->
            flat_map (fun k => match dict_get k d with
                               | Some v => [(k, v)] | None => [] end)
                     (map fst d0) = d0).
  { induction d0 as [|[k v] d0 IH]; simpl; intros I; auto.
    rewrite (dict_get_In k v d ND) by (apply I; now left).
    simpl. f_equal. apply IH. intros x Hx. apply I. now right. }
  rewrite G; [reflexivity | apply incl_refl].
Qed.

(** ** Running the monad *)

Lemma bind_ret_eq {A B} (m : M A) (f : A -> M B) w a w' :
  m w = (Ret a, w') -> bind m f w = f a w'.
Proof. intros H. unfold bind. now rewrite H. Qed.

Lemma bind_raise_eq {A B} (m : M A) (f : A -> M B) w e w' :
  m w = (Raise e, w') -> bind m f w = (Raise e, w').
Proof. intros H. unfold bind. now rewrite H. Qed.

Lemma try_ret_eq {A} (m : M A) h w a w' :
  m w = (Ret a, w') -> try_except m h w = (Ret a, w').
Proof. intros H. unfold try_except. now rewrite H. Qed.

Lemma try_raise_eq {A} (m : M A) h w e w' :
  m w = (Raise e, w') -> try_except m h w = h e w'.
Proof. intros H. unfold try_except. now rewrite H. Qed.

Lemma for_each_app {S X} (body : S -> X -> M S) xs ys s w :
  for_each body (xs ++ ys) s w =
  bind (for_each body xs s) (for_each body ys) w.
Proof.
  revert s w. induction xs as [|x xs IH]; intros s w; cbn [for_each app].
  - reflexivity.
  - unfold bind. destruct (body s x w) as [[s'| |] w1];
      try reflexivity.
    rewrite IH. reflexivity.
Qed.

(** ** The calls a computation makes *)

Lemma emitted_app w w' t : trace w' = trace w ++ t -> emitted w w' = t.
Proof.
  intros H. unfold emitted. rewrite H.
  rewrite skipn_app, skipn_all, Nat.sub_diag. reflexivity.
Qed.

Lemma emitted_refl w : emitted w w = [].
Proof. apply emitted_app. now rewrite app_nil_r. Qed.

Lemma silent_emits {A} P (m : M A) : silent m -> emits P m.
Proof.
  intros H w. exists []. rewrite H, app_nil_r. auto.
Qed.

Lemma emits_weaken {A} (P Q : call -> Prop) (m : M A) :
  (forall c, P c -> Q c) -> emits P m -> emits Q m.
Proof.
  intros I H w. destruct (H w) as [t [E F]]. exists t. split; auto.
  eapply Forall_impl; eauto.
Qed.

Lemma emits_bind {A B} P (m : M A) (f : A -> M B) :
  emits P m -> (forall a, emits P (f a)) -> emits P (bind m f).
Proof.
  intros Hm Hf w. destruct (Hm w) as [t [E F]]. unfold bind.
  destruct (m w) as [[a| |] w1]; simpl in *; try (exists t; now auto).
  destruct (Hf a w1) as [t' [E' F']].
  exists (t ++ t'). rewrite E', E, app_assoc. split; auto.
  apply Forall_app; auto.
Qed.

Lemma emits_try {A} P (m : M A) h :
  emits P m -> (forall e, emits P (h e)) -> emits P (try_except m h).
Proof.
  intros Hm Hh w. destruct (Hm w) as [t [E F]]. unfold try_except.
  destruct (m w) as [[a| e |] w1]; simpl in *; try (exists t; now auto).
  destruct (Hh e w1) as [t' [E' F']].
  exists (t ++ t'). rewrite E', E, app_assoc. split; auto.
  apply Forall_app; auto.
Qed.

Lemma emits_for_each {S X} P (body : S -> X -> M S) xs :
  (forall s x, In x xs -> emits P (body s x)) ->
  forall s, emits P (for_each body xs s).
Proof.
  induction xs as [|x xs IH]; intros H s; simpl.
  - apply silent_emits. now intros w.
  - apply emits_bind.
    + apply H. now left.
    + intros s'. apply IH. intros s0 x0 Hx. apply H. now right.
Qed.

Lemma emits_perform {A} (P : call -> Prop) c (answer : history -> reply A) :
  P c -> emits P (perform env c answer).
Proof. intros H w. exists [c]. simpl. auto. Qed.

Lemma emits_utcnow (P : call -> Prop) : P CUtcnow -> emits P (utcnow env).
Proof. intros H w. exists [CUtcnow]. simpl. auto. Qed.

Lemma emits_sleep (P : call -> Prop) secs :
  P (CSleep secs) -> emits P (sleep env secs).
Proof. intros H w. exists [CSleep secs]. simpl. auto. Qed.

Lemma silent_ret {A} (a : A) : silent (ret a).
Proof. now intros w. Qed.

Lemma silent_raise {A} e : silent (@raise A e).
Proof. now intros w. Qed.

Lemma silent_bind {A B} (m : M A) (f : A -> M B) :
  silent m -> (forall a, silent (f a)) -> silent (bind m f).
Proof.
  intros Hm Hf w. specialize (Hm w). unfold bind.
  destruct (m w) as [[a| |] w1]; simpl in *; subst; auto. apply Hf.
Qed.

Lemma silent_getitem d key : silent (getitem d key).
Proof. intros w. unfold getitem. now destruct (dict_get key d). Qed.

Lemma silent_check_task msg response : silent (check_task msg response).
Proof.
  unfold check_task. apply silent_bind; [apply silent_getitem|].
  intros status. destruct (String.eqb status "failed").
  - apply silent_bind; [apply silent_getitem | intros; apply silent_raise].
  - apply silent_ret.
Qed.

Lemma silent_last_item l : silent (last_item l).
Proof. intros w. unfold last_item. now destruct (rev l). Qed.

Lemma silent_load_balancer_names info : silent (load_balancer_names info).
Proof.
  intros w. unfold load_balancer_names.
  destruct (rec_group info) as [g|]; auto.
  now destruct (rec_loadBalancerNames g).
Qed.

(** ** Task poller *)

Lemma tick_now c secs w : now w + 1000000 * secs <= now (tick env c secs w).
Proof. simpl. lia. Qed.

Lemma wait_loop_unfold fuel u end_time w :
  wait_loop env (S fuel) u end_time w =
  let w1 := tick env CUtcnow 0 w in
  if end_time >? now w1 then
    let w2 := tick env (CGetTask u) 0 w1 in
    match task_json env (trace w1) u with
    | inl e => (Raise e, w2)
    | inr response =>
        match dict_get "status" response with
        | None => (Raise (KeyError "status"), w2)
        | Some status =>
            if terminal status then (Ret response, w2)
            else wait_loop env fuel u end_time (tick env (CSleep 1) 1 w2)
        end
    end
  else (Raise (TimeoutException (timed_out_msg u)), w1).
Proof.
  cbn [wait_loop]. unfold bind, utcnow. cbv zeta.
  destruct (end_time >? now (tick env CUtcnow 0 w)); [|reflexivity].
  unfold perform, getitem.
  destruct (task_json env (trace (tick env CUtcnow 0 w)) u) as [e|p];
    cbn [of_reply]; [reflexivity|].
  destruct (dict_get "status" p) as [s|]; [|reflexivity].
  unfold ret. destruct (terminal s); reflexivity.
Qed.

Lemma polls_rounds n u : length (polls (rounds n u)) = n.
Proof. induction n; simpl; auto. Qed.

Lemma polls_app t t' : polls (t ++ t') = polls t ++ polls t'.
Proof. apply flat_map_app. Qed.

(** The shape of a run of the loop: some turns in which the task is found
    running, then the deadline or a last poll. *)
Lemma wait_loop_run fuel : forall u end_time w,
  end_time - now w <= 1000000 * Z.of_nat fuel ->
  exists r w' n tail,
    wait_loop env (S fuel) u end_time w = (r, w') /\
    trace w' = trace w ++ rounds n u ++ tail /\
    (n <= fuel)%nat /\
    (forall k, (k < n)%nat ->
       running_at env (trace w ++ rounds k u ++ [CUtcnow]) u) /\
    ((tail = [CUtcnow] /\
      r = Raise (TimeoutException (timed_out_msg u)) /\
      end_time <= now w')
     \/
     (tail = [CUtcnow; CGetTask u] /\ (n < fuel)%nat /\
      last_poll env (trace w ++ rounds n u ++ [CUtcnow]) u r)).
Proof.
  induction fuel as [|fuel IH]; intros u end_time w B;
    rewrite wait_loop_unfold; cbv zeta;
    pose proof (tick_now CUtcnow 0 w) as T1;
    set (w1 := tick env CUtcnow 0 w) in *;
    destruct (end_time >? now w1) eqn:C.
  - (* no fuel left for a turn: the deadline has passed *)
    apply Z.gtb_lt in C. lia.
  - exists (Raise (TimeoutException (timed_out_msg u))), w1, O, [CUtcnow].
    repeat split; auto; try lia.
    left. repeat split. rewrite Z.gtb_ltb in C. apply Z.ltb_ge in C. lia.
  - apply Z.gtb_lt in C.
    set (w2 := tick env (CGetTask u) 0 w1).
    assert (E2 : trace w2 = trace w ++ rounds 0 u ++ [CUtcnow; CGetTask u]).
    { subst w2 w1. simpl. now rewrite <- app_assoc. }
    assert (E1 : trace w1 = trace w ++ rounds 0 u ++ [CUtcnow]) by reflexivity.
    destruct (task_json env (trace w1) u) as [e|p] eqn:Q.
    { exists (Raise e), w2, O, [CUtcnow; CGetTask u].
      repeat split; auto; try lia. right. repeat split; try lia.
      apply poll_raises. exact Q. }
    destruct (dict_get "status" p) as [s|] eqn:St.
    2:{ exists (Raise (KeyError "status")), w2, O, [CUtcnow; CGetTask u].
        repeat split; auto; try lia. right. repeat split; try lia.
        apply poll_no_status with p; [exact Q | exact St]. }
    destruct (terminal s) eqn:Tm.
    { exists (Ret p), w2, O, [CUtcnow; CGetTask u].
      repeat split; auto; try lia. right. repeat split; try lia.
      apply poll_terminal with s; [exact Q | exact St | exact Tm]. }
    set (w3 := tick env (CSleep 1) 1 w2).
    assert (E3 : trace w3 = trace w ++ rounds 1 u).
    { subst w3 w2 w1. simpl. rewrite <- !app_assoc. reflexivity. }
    assert (T3 : now w1 + 1000000 <= now w3).
    { pose proof (tick_now (CGetTask u) 0 w1).
      pose proof (tick_now (CSleep 1) 1 w2). subst w3 w2. lia. }
    destruct (IH u end_time w3) as (r & w' & n & tail & R & E & L & Run & Fin);
      [lia|].
    exists r, w', (S n), tail. split; [exact R|].
    assert (A : forall k rest,
              trace w3 ++ rounds k u ++ rest =
              trace w ++ rounds (S k) u ++ rest).
    { intros k rest. rewrite E3. rewrite <- app_assoc. reflexivity. }
    split; [now rewrite E, A|]. split; [lia|]. split.
    + intros [|k] Hk.
      * rewrite <- E1. exists p, s. auto.
      * rewrite <- A. apply Run. lia.
    + destruct Fin as [(-> & -> & D)|(-> & Hn & LP)].
      * left. auto.
      * right. repeat split; try lia. now rewrite <- A.
  - exists (Raise (TimeoutException (timed_out_msg u))), w1, O, [CUtcnow].
    repeat split; auto; try lia.
    left. repeat split. rewrite Z.gtb_ltb in C. apply Z.ltb_ge in C. lia.
Qed.

(** Where a status request sits in a trace of that shape. *)
Lemma rounds_split u post : forall n tail pre,
  tail = [CUtcnow] \/ tail = [CUtcnow; CGetTask u] ->
  rounds n u ++ tail = pre ++ CGetTask u :: post ->
  exists k, pre = rounds k u ++ [CUtcnow] /\
    ((k < n)%nat \/ (k = n /\ tail = [CUtcnow; CGetTask u] /\ post = [])).
Proof.
  induction n as [|n IH]; intros tail pre Ht E.
  - exists O. simpl in *.
    destruct Ht as [-> | ->];
      destruct pre as [|a [|b [|c pre]]]; simpl in E;
      try discriminate; inversion E; subst; auto;
      try (destruct pre; discriminate).
  - destruct pre as [|a [|b [|c pre]]]; simpl in E; try discriminate.
    + inversion E; subst. exists O. split; auto. left. lia.
    + inversion E; subst.
      destruct (IH tail pre Ht H3) as [k [-> Hk]].
      exists (S k). split; auto.
      destruct Hk as [Hk|(-> & Hk)]; [left; lia | right; auto].
Qed.

Lemma wait_emits task_url timeout :
  emits polling (wait_for_task_completion env task_url timeout).
Proof.
  unfold wait_for_task_completion.
  apply emits_bind; [apply emits_utcnow; exact I|].
  intros t. apply emits_bind.
  { apply silent_emits. intros w. unfold plus_seconds.
    now destruct (in_range t timeout). }
  intros end_time. generalize (S (Z.to_nat timeout)).
  induction n as [|n IH]; cbn [wait_loop].
  - apply silent_emits. now intros w.
  - apply emits_bind; [apply emits_utcnow; exact I|].
    intros t'. destruct (_ >? _).
    + apply emits_bind; [apply emits_perform; exact I|]. intros p.
      apply emits_bind; [apply silent_emits, silent_getitem|]. intros s.
      destruct (terminal s).
      * apply silent_emits, silent_ret.
      * apply emits_bind; [apply emits_sleep; exact I | auto].
    + apply silent_emits, silent_raise.
Qed.


Lemma history_snoc (h : history) c rest : (h ++ [c]) ++ rest = h ++ c :: rest.
Proof. now rewrite <- app_assoc. Qed.




(** C9, amended. With a timeout that is zero or negative and a deadline
    that is a [datetime], the deadline has passed when the loop first
    tests it: [wait_for_task_completion] raises [TimeoutException] after
    reading the clock twice, and the status of the task is never
    requested.  When the deadline is no [datetime] (it lies before the
    year 1) the call raises [OverflowError] after reading the clock once,
    and the status is not requested either. *)
Theorem wait_for_task_completion_nonpositive_timeout :
  forall task_url timeout w,
  timeout <= 0 ->
  (in_range (now (tick env CUtcnow 0 w)) timeout = true ->
   exists w',
     wait_for_task_completion env task_url timeout w =
       (Raise (TimeoutException (timed_out_msg (json_url task_url))), w') /\
     emitted w w' = [CUtcnow; CUtcnow] /\
     polls (emitted w w') = []) /\
  (in_range (now (tick env CUtcnow 0 w)) timeout = false ->
   wait_for_task_completion env task_url timeout w =
     (Raise OverflowError, tick env CUtcnow 0 w) /\
   polls (emitted w (tick env CUtcnow 0 w)) = []).
Proof.
  intros task_url timeout w Ht.
  unfold wait_for_task_completion, bind, utcnow, plus_seconds. cbv zeta.
  set (w1 := tick env CUtcnow 0 w).
  split; intros Rg; rewrite Rg.
  - unfold ret at 1.
    replace (Z.to_nat timeout) with O by lia.
    rewrite wait_loop_unfold. cbv zeta.
    pose proof (tick_now CUtcnow 0 w1) as T.
    destruct (_ >? _) eqn:C; [apply Z.gtb_lt in C; lia|].
    exists (tick env CUtcnow 0 w1). split; [reflexivity|].
    assert (E : emitted w (tick env CUtcnow 0 w1) = [CUtcnow; CUtcnow]).
    { apply emitted_app. subst w1. simpl. now rewrite <- app_assoc. }
    rewrite E. auto.
  - split; [reflexivity|].
    rewrite (emitted_app w w1 [CUtcnow]) by reflexivity. reflexivity.
Qed.

(** ** Cluster directory *)

Lemma existsb_py_in asgs groups :
  existsb (fun asg => py_in asg asgs) groups = true <->
  exists asg, In asg groups /\ In asg asgs.
Proof.
  rewrite existsb_exists. split; intros [a [H1 H2]]; exists a; split; auto;
    now apply py_in_In.
Qed.

Lemma relevant_clusters_of_spec asgs : forall listing acc,
  Forall well_formed listing ->
  exists d,
    relevant_clusters_of asgs listing acc = inr d /\
    (forall c groups, dict_get c d = Some groups ->
       dict_get c acc = Some groups \/
       exists r, In r listing /\ matching asgs c groups r) /\
    (forall c,
       (exists groups, dict_get c acc = Some groups) \/
       (exists r groups, In r listing /\ matching asgs c groups r) ->
       exists groups, dict_get c d = Some groups).
Proof.
  induction listing as [|r listing IH]; intros acc WF; cbn [relevant_clusters_of].
  - exists acc. repeat split; auto.
    intros c [H|(r & g & [] & _)]; auto.
  - inversion WF as [|? ? [Hc Hg] WF']; subst.
    destruct (rec_autoScalingGroups r) as [groups|] eqn:Eg; [|congruence].
    destruct (rec_cluster r) as [name|] eqn:Ec; [|congruence].
    destruct (existsb (fun asg => py_in asg asgs) groups) eqn:Ex.
    + apply existsb_py_in in Ex.
      destruct (IH (dict_set name groups acc) WF') as (d & R & Snd & Cpl).
      exists d. split; [exact R|]. split.
      * intros c g G. destruct (Snd c g G) as [G'|(r' & I & Mt)].
        -- destruct (string_dec c name) as [->|N].
           ++ rewrite dict_get_set_same in G'. inversion G'; subst g.
              right. exists r. split; [now left|]. repeat split; auto.
           ++ rewrite dict_get_set_other in G' by assumption. now left.
        -- right. exists r'. split; [now right | assumption].
      * intros c H. apply Cpl.
        destruct (string_dec c name) as [->|N].
        -- left. exists groups. apply dict_get_set_same.
        -- destruct H as [[g G]|(r' & g & [<-|I] & Mt)].
           ++ left. exists g. now rewrite dict_get_set_other.
           ++ destruct Mt as (Mc & _). congruence.
           ++ right. now exists r', g.
    + destruct (IH acc WF') as (d & R & Snd & Cpl).
      exists d. split; [exact R|]. split.
      * intros c g G. destruct (Snd c g G) as [G'|(r' & I & Mt)]; auto.
        right. exists r'. split; [now right | assumption].
      * intros c H. apply Cpl.
        destruct H as [H|(r' & g & [<-|I] & Mt)]; auto.
        -- exfalso. destruct Mt as (_ & Mg & Ma).
           rewrite Eg in Mg. inversion Mg; subst g.
           apply existsb_py_in in Ma. congruence.
        -- right. now exists r', g.
Qed.

(** Two records of a listing without repeated names that name the same
    cluster are one record. *)
Lemma same_cluster_same_record : forall listing r r' c,
  NoDup (map rec_cluster listing) ->
  In r listing -> In r' listing ->
  rec_cluster r = Some c -> rec_cluster r' = Some c -> r = r'.
Proof.
  induction listing as [|x listing IH]; intros r r' c ND I I' E E';
    [contradiction|].
  inversion ND as [|? ? Hn ND']; subst.
  destruct I as [<-|I], I' as [<-|I']; auto.
  - exfalso. apply Hn. rewrite E, <- E'. now apply in_map.
  - exfalso. apply Hn. rewrite E', <- E. now apply in_map.
  - eapply IH; eauto.
Qed.

(** C6. On a listing in which every record has the keys [cluster] and
    [autoScalingGroups], [clusters_for_asgs] requests the listing once and
    returns a dictionary whose keys are exactly the clusters that have a
    record with one of the requested groups among its groups, each bound to
    the whole group list of such a record; when no two records name the
    same cluster, the dictionary binds [c] to [groups] exactly when the
    record of [c] lists [groups] and one of them was requested. *)
Theorem clusters_for_asgs_returns_matching_clusters :
  forall asgs listing w,
  cluster_list_json env (trace w) = inr listing ->
  Forall well_formed listing ->
  exists d w',
    clusters_for_asgs env asgs w = (Ret d, w') /\
    emitted w w' = [CGetClusterList] /\
    (forall c groups, dict_get c d = Some groups ->
       exists r, In r listing /\ matching asgs c groups r) /\
    (forall c groups r, In r listing -> matching asgs c groups r ->
       exists groups', dict_get c d = Some groups') /\
    (NoDup (map rec_cluster listing) ->
     forall c groups,
       dict_get c d = Some groups <->
       exists r, In r listing /\ matching asgs c groups r).
Proof.
  intros asgs listing w Q WF.
  destruct (relevant_clusters_of_spec asgs listing [] WF) as (d & R & Snd & Cpl).
  exists d, (tick env CGetClusterList 0 w).
  assert (S1 : forall c groups, dict_get c d = Some groups ->
                 exists r, In r listing /\ matching asgs c groups r).
  { intros c g G. destruct (Snd c g G) as [G'|H]; [discriminate | exact H]. }
  assert (S2 : forall c groups r, In r listing -> matching asgs c groups r ->
                 exists groups', dict_get c d = Some groups').
  { intros c g r I Mt. apply Cpl. right. now exists r, g. }
  split.
  { unfold clusters_for_asgs, bind, perform, pure. rewrite Q.
    cbn [of_reply]. now rewrite R. }
  split; [apply emitted_app; reflexivity|].
  split; [exact S1|]. split; [exact S2|].
  intros ND c groups. split; [apply S1|].
  intros (r & I & Mt).
  destruct (S2 c groups r I Mt) as [g' G].
  destruct (S1 c g' G) as (r' & I' & Mt').
  assert (r = r').
  { destruct Mt as (Mc & _), Mt' as (Mc' & _).
    eapply same_cluster_same_record; eauto. }
  subst r'. destruct Mt as (_ & Mg & _), Mt' as (_ & Mg' & _). congruence.
Qed.

(** ** ASG lifecycle *)

Lemma string_app_nil_r (s : string) : (s ++ "")%string = s.
Proof. induction s; simpl; congruence. Qed.

Lemma last_item_snoc front name w :
  last_item (front ++ [name]) w = (Ret name, w).
Proof. unfold last_item. rewrite rev_app_distr. reflexivity. Qed.

Lemma check_task_failed msg response log w :
  dict_get "status" response = Some "failed" ->
  dict_get "log" response = Some log ->
  check_task msg response w = (Raise (BackendError (msg log)), w).
Proof.
  intros S L. unfold check_task, bind, getitem. rewrite S. cbn.
  now rewrite L.
Qed.

Lemma check_task_passed msg response status w :
  dict_get "status" response = Some status ->
  status <> "failed" ->
  check_task msg response w = (Ret tt, w).
Proof.
  intros S N. unfold check_task, bind, getitem. rewrite S. cbn.
  apply String.eqb_neq in N. now rewrite N.
Qed.

(** C5. When the task that creates the group reports the status [failed]
    with the log [log], [new_asg] raises a [BackendError] whose message
    contains [log] without asking for the groups of the cluster; when the
    task reports another final status, [new_asg] asks for the groups of
    the cluster once and returns the last of them. *)
Theorem new_asg_fails_with_log_or_returns_last :
  forall cluster ami_id w task_url response w2,
  post_new_asg_url env (trace w) cluster ami_id = inr task_url ->
  wait_for_task_completion env task_url (ASGARD_WAIT_TIMEOUT env)
    (tick env (CPostNewAsg cluster ami_id) 0 w) = (Ret response, w2) ->
  (forall log,
     dict_get "status" response = Some "failed" ->
     dict_get "log" response = Some log ->
     exists msg,
       new_asg env cluster ami_id w = (Raise (BackendError msg), w2) /\
       contains msg log /\
       cluster_queries (emitted w w2) = []) /\
  (forall status asgs front name,
     dict_get "status" response = Some status ->
     status <> "failed" ->
     cluster_info_json env (trace w2) cluster = inr asgs ->
     asg_names asgs = Some (front ++ [name]) ->
     exists w3,
       new_asg env cluster ami_id w = (Ret name, w3) /\
       cluster_queries (emitted w w3) = [cluster]).
Proof.
  intros cluster ami_id w task_url response w2 P W.
  assert (R : new_asg env cluster ami_id w =
              bind (check_task new_asg_failed_msg response)
                (fun _ => asgs <- asgs_for_cluster env cluster ;;
                          last_item asgs) w2).
  { unfold new_asg.
    unfold bind at 1, perform at 1. rewrite P. cbn [of_reply].
    now rewrite (bind_ret_eq _ _ _ _ _ W). }
  destruct (wait_emits task_url (ASGARD_WAIT_TIMEOUT env)
              (tick env (CPostNewAsg cluster ami_id) 0 w)) as (t & E & F).
  rewrite W in E. simpl in E. rewrite history_snoc in E.
  assert (Qt : cluster_queries t = []).
  { clear E. induction F as [|c t Hc F IH]; auto.
    destruct c; simpl in *; auto; contradiction. }
  split.
  - intros log S L. exists (new_asg_failed_msg log). split; [|split].
    + rewrite R. apply bind_raise_eq. now apply check_task_failed.
    + exists ("Failure during new ASG creation. Task Log: " ++ nl)%string, "".
      unfold new_asg_failed_msg. simpl. now rewrite string_app_nil_r.
    + rewrite (emitted_app _ _ _ E). simpl. exact Qt.
  - intros status asgs front name S N Q Nm.
    exists (tick env (CGetClusterInfo cluster) 0 w2). split.
    + rewrite R.
      rewrite (bind_ret_eq _ _ _ _ _ (check_task_passed _ _ _ _ S N)).
      unfold asgs_for_cluster, bind, perform. rewrite Q. cbn [of_reply].
      rewrite Nm. unfold ret. apply last_item_snoc.
    + assert (E3 : trace (tick env (CGetClusterInfo cluster) 0 w2) =
                   trace w ++ (CPostNewAsg cluster ami_id :: t) ++
                   [CGetClusterInfo cluster]).
      { simpl. rewrite E. now rewrite <- app_assoc. }
      rewrite (emitted_app _ _ _ E3).
      unfold cluster_queries in *. rewrite flat_map_app. simpl.
      now rewrite Qt.
Qed.

(** ** The requests of the lifecycle operations *)

Lemma requests_app t t' : requests (t ++ t') = requests t ++ requests t'.
Proof. apply filter_app. Qed.

Lemma requests_quiet t : Forall quiet t -> requests t = [].
Proof.
  induction 1 as [|c t Hc F IH]; simpl; auto.
  unfold quiet in Hc. now rewrite Hc.
Qed.

Lemma deactivations_requests t : deactivations (requests t) = deactivations t.
Proof.
  induction t as [|c t IH]; simpl; auto.
  destruct c; simpl; auto; now rewrite IH.
Qed.

Lemma activations_requests t : activations (requests t) = activations t.
Proof.
  induction t as [|c t IH]; simpl; auto.
  destruct c; simpl; auto; now rewrite IH.
Qed.

Lemma creations_requests t : creations (requests t) = creations t.
Proof.
  induction t as [|c t IH]; simpl; auto.
  destruct c; simpl; auto; now rewrite IH.
Qed.

Lemma polling_quiet c : polling c -> quiet c.
Proof. destruct c; simpl; intros []; reflexivity. Qed.

Lemma starts_perform {A B} (P : call -> Prop) c (answer : history -> reply A)
    (f : A -> M B) :
  (forall a, emits P (f a)) -> starts_with c P (bind (perform env c answer) f).
Proof.
  intros Hf w. unfold bind, perform.
  destruct (answer (trace w)) as [e|a]; simpl.
  - exists []. auto.
  - destruct (Hf a (tick env c 0 w)) as [t [E F]].
    exists t. rewrite E. simpl. rewrite <- app_assoc. auto.
Qed.

Lemma starts_bind {A B} (P : call -> Prop) c (m : M A) (f : A -> M B) :
  starts_with c P m -> (forall a, emits P (f a)) ->
  starts_with c P (bind m f).
Proof.
  intros Hm Hf w. destruct (Hm w) as [t [E F]]. unfold bind.
  destruct (m w) as [[a| |] w1]; simpl in *; try (exists t; now auto).
  destruct (Hf a w1) as [t' [E' F']].
  exists (t ++ t'). rewrite E', E, <- app_assoc. split; auto.
  apply Forall_app; auto.
Qed.

Lemma starts_try {A} (P : call -> Prop) c (m : M A) h :
  starts_with c P m -> (forall e, emits P (h e)) ->
  starts_with c P (try_except m h).
Proof.
  intros Hm Hh w. destruct (Hm w) as [t [E F]]. unfold try_except.
  destruct (m w) as [[a| e |] w1]; simpl in *; try (exists t; now auto).
  destruct (Hh e w1) as [t' [E' F']].
  exists (t ++ t'). rewrite E', E, <- app_assoc. split; auto.
  apply Forall_app; auto.
Qed.

(** The requests of a run that starts with a request and is quiet
    afterwards. *)
Lemma starts_run {A} c (m : M A) w r w' :
  starts_with c quiet m -> is_request c = true -> m w = (r, w') ->
  exists t, trace w' = trace w ++ t /\ requests t = [c].
Proof.
  intros H C R. destruct (H w) as [t [E F]]. rewrite R in E.
  exists (c :: t). split; [exact E|].
  simpl. rewrite C. now rewrite requests_quiet.
Qed.

Lemma emits_run {A} (m : M A) w r w' :
  emits quiet m -> m w = (r, w') ->
  exists t, trace w' = trace w ++ t /\ requests t = [].
Proof.
  intros H R. destruct (H w) as [t [E F]]. rewrite R in E.
  exists t. split; [exact E | now apply requests_quiet].
Qed.

Lemma emits_poll_and_check (P : call -> Prop) msg task_url timeout :
  (forall c, polling c -> P c) ->
  emits P (task_status <- wait_for_task_completion env task_url timeout ;;
           check_task msg task_status).
Proof.
  intros HP. apply emits_bind.
  - eapply emits_weaken; [exact HP | apply wait_emits].
  - intros p. apply silent_emits, silent_check_task.
Qed.

Lemma emits_asgs_for_cluster (P : call -> Prop) cluster :
  P (CGetClusterInfo cluster) -> emits P (asgs_for_cluster env cluster).
Proof.
  intros H. unfold asgs_for_cluster. apply emits_bind.
  - now apply emits_perform.
  - intros asgs. apply silent_emits.
    destruct (asg_names asgs); [apply silent_ret | apply silent_raise].
Qed.

Lemma starts_new_asg (P : call -> Prop) cluster ami_id :
  (forall c, polling c -> P c) -> P (CGetClusterInfo cluster) ->
  starts_with (CPostNewAsg cluster ami_id) P (new_asg env cluster ami_id).
Proof.
  intros HP HQ. unfold new_asg. apply starts_perform. intros task_url.
  apply emits_bind.
  - eapply emits_weaken; [exact HP | apply wait_emits].
  - intros p. apply emits_bind; [apply silent_emits, silent_check_task|].
    intros _. apply emits_bind; [now apply emits_asgs_for_cluster|].
    intros asgs. apply silent_emits, silent_last_item.
Qed.

Lemma starts_enable_asg (P : call -> Prop) asg :
  (forall c, polling c -> P c) ->
  starts_with (CPostActivate asg) P (enable_asg env asg).
Proof.
  intros HP. unfold enable_asg. apply starts_perform. intros task_url.
  now apply emits_poll_and_check.
Qed.

Lemma starts_disable_asg (P : call -> Prop) asg :
  (forall c, polling c -> P c) ->
  starts_with (CPostDeactivate asg) P (disable_asg env asg).
Proof.
  intros HP. unfold disable_asg. apply starts_perform. intros task_url.
  now apply emits_poll_and_check.
Qed.

Lemma starts_enable_and_lookup (P : call -> Prop) elbs asg :
  (forall c, polling c -> P c) -> P (CGetAsgInfo asg) ->
  starts_with (CPostActivate asg) P (enable_and_lookup env elbs asg).
Proof.
  intros HP HQ. unfold enable_and_lookup.
  apply starts_bind; [now apply starts_enable_asg|].
  intros _. apply emits_bind; [now apply emits_perform|].
  intros info. apply emits_bind.
  - apply silent_emits, silent_load_balancer_names.
  - intros l. apply silent_emits, silent_ret.
Qed.


Lemma emits_discover (P : call -> Prop) ami_id :
  (forall c, quiet c -> P c) -> emits P (discover env ami_id).
Proof.
  intros HP. unfold discover, clusters_for_asgs.
  apply emits_bind; [apply emits_perform, HP; reflexivity|]. intros edc.
  apply emits_bind; [apply emits_perform, HP; reflexivity|]. intros asgs.
  apply emits_bind; [apply emits_perform, HP; reflexivity|]. intros l.
  apply silent_emits. now intros w.
Qed.

(** ** Loops that run to their end *)

Lemma bind_ret_inv {A B} (m : M A) (f : A -> M B) w b w' :
  bind m f w = (Ret b, w') ->
  exists a w1, m w = (Ret a, w1) /\ f a w1 = (Ret b, w').
Proof.
  unfold bind. destruct (m w) as [[a| |] w1]; intros H; try discriminate.
  now exists a, w1.
Qed.

Lemma for_each_requests {S X} (body : S -> X -> M S) (head : X -> call) xs :
  (forall s x w r w', body s x w = (Ret r, w') ->
     exists t, trace w' = trace w ++ t /\ requests t = [head x]) ->
  forall s w r w', for_each body xs s w = (Ret r, w') ->
    exists t, trace w' = trace w ++ t /\ requests t = map head xs.
Proof.
  intros Hb. induction xs as [|x xs IH]; intros s w r w' R; simpl in R.
  - inversion R; subst. exists []. now rewrite app_nil_r.
  - apply bind_ret_inv in R. destruct R as (s1 & w1 & R1 & R2).
    destruct (Hb _ _ _ _ _ R1) as (t1 & E1 & Q1).
    destruct (IH _ _ _ _ R2) as (t2 & E2 & Q2).
    exists (t1 ++ t2). rewrite E2, E1, app_assoc. split; auto.
    rewrite requests_app, Q1, Q2. reflexivity.
Qed.

Lemma starts_create_one ami_id new_asgs cluster :
  starts_with (CPostNewAsg cluster ami_id) quiet
    (create_one env ami_id new_asgs cluster).
Proof.
  unfold create_one. apply starts_try.
  - apply starts_bind.
    + apply starts_new_asg; [apply polling_quiet | reflexivity].
    + intros asg. apply silent_emits, silent_ret.
  - intros e. apply silent_emits, silent_raise.
Qed.

Lemma create_all_requests ami_id clusters : forall s w d w',
  for_each (create_one env ami_id) clusters s w = (Ret d, w') ->
  exists t, trace w' = trace w ++ t /\
            requests t = map (fun c => CPostNewAsg c ami_id) clusters.
Proof.
  apply for_each_requests. intros s x w r w' R.
  eapply starts_run; eauto. apply starts_create_one.
Qed.

Lemma activate_all_requests items : forall s w elbs w',
  for_each (activate_one env) items s w = (Ret elbs, w') ->
  exists t, trace w' = trace w ++ t /\
            requests t = map (fun item => CPostActivate (snd item)) items.
Proof.
  apply for_each_requests. intros s x w r w' R.
  unfold activate_one, try_except in R.
  destruct (enable_and_lookup env s (snd x) w) as [[l|e|] w1] eqn:B.
  - inversion R; subst.
    eapply starts_run; eauto.
    apply starts_enable_and_lookup; [apply polling_quiet | reflexivity].
  - apply bind_ret_inv in R. destruct R as (? & ? & _ & R). discriminate.
  - discriminate.
Qed.

Lemma disable_all_requests {X} (arg : X -> name_arg) items : forall s w r w',
  for_each (fun (_ : unit) item => disable_asg env (arg item)) items s w
    = (Ret r, w') ->
  exists t, trace w' = trace w ++ t /\
            requests t = map (fun item => CPostDeactivate (arg item)) items.
Proof.
  apply for_each_requests. intros s x w r w' R.
  eapply starts_run; eauto.
  apply starts_disable_asg, polling_quiet.
Qed.

(** ** Reading the requests of a trace *)

Lemma deactivations_app t t' :
  deactivations (t ++ t') = deactivations t ++ deactivations t'.
Proof. apply flat_map_app. Qed.

Lemma activations_app t t' :
  activations (t ++ t') = activations t ++ activations t'.
Proof. apply flat_map_app. Qed.

Lemma creations_app t t' : creations (t ++ t') = creations t ++ creations t'.
Proof. apply flat_map_app. Qed.

Lemma deactivations_create ami_id (l : list string) :
  deactivations (map (fun c => CPostNewAsg c ami_id) l) = [].
Proof. induction l; simpl; auto. Qed.

Lemma activations_create ami_id (l : list string) :
  activations (map (fun c => CPostNewAsg c ami_id) l) = [].
Proof. induction l; simpl; auto. Qed.

Lemma creations_create ami_id (l : list string) :
  creations (map (fun c => CPostNewAsg c ami_id) l) =
  map (fun c => (c, ami_id)) l.
Proof. induction l; simpl; congruence. Qed.

Lemma deactivations_activate {X} (g : X -> string) l :
  deactivations (map (fun x => CPostActivate (g x)) l) = [].
Proof. induction l; simpl; auto. Qed.

Lemma activations_activate {X} (g : X -> string) l :
  activations (map (fun x => CPostActivate (g x)) l) = map g l.
Proof. induction l; simpl; congruence. Qed.

Lemma creations_activate {X} (g : X -> string) l :
  creations (map (fun x => CPostActivate (g x)) l) = [].
Proof. induction l; simpl; auto. Qed.

Lemma deactivations_deactivate {X} (g : X -> name_arg) l :
  deactivations (map (fun x => CPostDeactivate (g x)) l) = map g l.
Proof. induction l; simpl; congruence. Qed.

Lemma activations_deactivate {X} (g : X -> name_arg) l :
  activations (map (fun x => CPostDeactivate (g x)) l) = [].
Proof. induction l; simpl; auto. Qed.

Lemma creations_deactivate {X} (g : X -> name_arg) l :
  creations (map (fun x => CPostDeactivate (g x)) l) = [].
Proof. induction l; simpl; auto. Qed.

(** ** Every call has an outcome *)

Lemma total_wait task_url timeout :
  total (wait_for_task_completion env task_url timeout).
Proof.
  intros w. unfold wait_for_task_completion, bind, utcnow, plus_seconds.
  cbv zeta. set (w1 := tick env CUtcnow 0 w).
  destruct (in_range (now w1) timeout); [|discriminate].
  unfold ret at 1.
  destruct (wait_loop_run (Z.to_nat timeout) (json_url task_url)
              (now w1 + 1000000 * timeout) w1)
    as (r & w' & n & tail & R & _ & _ & _ & Fin); [lia|].
  rewrite R. simpl.
  destruct Fin as [(_ & -> & _)|(_ & _ & LP)]; [discriminate|].
  inversion LP; discriminate.
Qed.

Lemma total_bind {A B} (m : M A) (f : A -> M B) :
  total m -> (forall a, total (f a)) -> total (bind m f).
Proof.
  intros Hm Hf w. specialize (Hm w). unfold bind.
  destruct (m w) as [[a| |] w1]; simpl in *; try discriminate; auto.
  apply Hf.
Qed.

Lemma total_check_task msg response : total (check_task msg response).
Proof.
  intros w. unfold check_task, bind, getitem.
  destruct (dict_get "status" response) as [s|]; simpl; [|discriminate].
  destruct (String.eqb s "failed"); simpl; [|discriminate].
  destruct (dict_get "log" response); discriminate.
Qed.

Lemma total_disable_asg asg : total (disable_asg env asg).
Proof.
  unfold disable_asg. apply total_bind.
  - intros w. unfold perform. simpl.
    destruct (post_deactivate_url env (trace w) asg); discriminate.
  - intros url. apply total_bind; [apply total_wait|].
    intros p. apply total_check_task.
Qed.

(** ** The stages of a deployment *)

Lemma discover_run ami_id w r w' :
  discover env ami_id w = (r, w') ->
  exists t, trace w' = trace w ++ t /\ requests t = [].
Proof. apply emits_run, emits_discover. auto. Qed.

Lemma wait_for_in_service_run asgs timeout w r w' :
  wait_for_in_service env asgs timeout w = (r, w') ->
  exists t, trace w' = trace w ++ t /\ requests t = [].
Proof. apply emits_run, emits_perform. reflexivity. Qed.

Lemma wait_for_healthy_elbs_run elbs timeout w r w' :
  wait_for_healthy_elbs env elbs timeout w = (r, w') ->
  exists t, trace w' = trace w ++ t /\ requests t = [].
Proof. apply emits_run, emits_perform. reflexivity. Qed.

Lemma disable_asg_run asg w r w' :
  disable_asg env asg w = (r, w') ->
  exists t, trace w' = trace w ++ t /\ requests t = [CPostDeactivate asg].
Proof.
  apply starts_run; [|reflexivity]. apply starts_disable_asg, polling_quiet.
Qed.

Lemma enable_and_lookup_run elbs asg w r w' :
  enable_and_lookup env elbs asg w = (r, w') ->
  exists t, trace w' = trace w ++ t /\ requests t = [CPostActivate asg].
Proof.
  apply starts_run; [|reflexivity].
  apply starts_enable_and_lookup; [apply polling_quiet | reflexivity].
Qed.

Lemma new_asg_run cluster ami_id w r w' :
  new_asg env cluster ami_id w = (r, w') ->
  exists t, trace w' = trace w ++ t /\
            requests t = [CPostNewAsg cluster ami_id].
Proof.
  apply starts_run; [|reflexivity].
  apply starts_new_asg; [apply polling_quiet | reflexivity].
Qed.

(** The dictionary of the new groups has one entry for each cluster. *)
Lemma create_all_NoDup ami_id clusters : forall s w d w',
  for_each (create_one env ami_id) clusters s w = (Ret d, w') ->
  NoDup (map fst s) -> NoDup (map fst d).
Proof.
  induction clusters as [|c clusters IH]; intros s w d w' R ND; simpl in R.
  - now inversion R; subst.
  - apply bind_ret_inv in R. destruct R as (s1 & w1 & R1 & R2).
    apply (IH _ _ _ _ R2).
    unfold create_one, try_except, bind in R1.
    destruct (new_asg env c ami_id w) as [[a| |] w2]; try discriminate.
    inversion R1; subst. now apply dict_set_NoDup.
Qed.

(** C7. When [new_asg] raises for a cluster, after the groups of the
    clusters [done] before it were created, [deploy] raises the same
    exception at once: [new_asg] was invoked for the clusters up to the
    failing one and for no other, and no group was activated or
    deactivated. *)
Theorem deploy_reraises_creation_failure :
  forall ami_id w0 existing_clusters w1 done cluster rest new_asgs w2 e w3,
  discover env ami_id w0 = (Ret existing_clusters, w1) ->
  dict_keys env existing_clusters = done ++ cluster :: rest ->
  create_all env ami_id done w1 = (Ret new_asgs, w2) ->
  new_asg env cluster ami_id w2 = (Raise e, w3) ->
  deploy env ami_id w0 = (Raise e, w3) /\
  creations (emitted w0 w3) = map (fun c => (c, ami_id)) (done ++ [cluster]) /\
  activations (emitted w0 w3) = [] /\
  deactivations (emitted w0 w3) = [].
Proof.
  intros ami_id w0 existing w1 done cluster rest new_asgs w2 e w3 H1 Hk H2 H3.
  split.
  - unfold deploy. rewrite (bind_ret_eq _ _ _ _ _ H1).
    apply bind_raise_eq. unfold create_all in *.
    rewrite Hk, for_each_app, (bind_ret_eq _ _ _ _ _ H2).
    cbn [for_each]. apply bind_raise_eq.
    unfold create_one. rewrite (try_raise_eq _ _ _ _ _ (bind_raise_eq _ _ _ _ _ H3)).
    reflexivity.
  - destruct (discover_run _ _ _ _ H1) as (t1 & E1 & Q1).
    destruct (create_all_requests _ _ _ _ _ _ H2) as (t2 & E2 & Q2).
    destruct (new_asg_run _ _ _ _ _ H3) as (t3 & E3 & Q3).
    assert (E : trace w3 = trace w0 ++ t1 ++ t2 ++ t3).
    { rewrite E3, E2, E1, <- !app_assoc. reflexivity. }
    assert (Q : requests (emitted w0 w3) =
                map (fun c => CPostNewAsg c ami_id) (done ++ [cluster])).
    { rewrite (emitted_app _ _ _ E), !requests_app, Q1, Q2, Q3, map_app.
      reflexivity. }
    rewrite <- creations_requests, <- activations_requests,
      <- deactivations_requests, Q.
    now rewrite creations_create, activations_create, deactivations_create.
Qed.

(** C8, amended. When the activation of a new group or the lookup of its
    load balancers raises [e], after the groups [done] before it were
    activated, [deploy] invokes [disable_asg] on that group and on no
    other; when that invocation returns, [deploy] raises [e], and when it
    raises, its exception is the one [deploy] raises.  The groups
    activated before receive no deactivation. *)
Theorem deploy_deactivates_only_the_failing_asg :
  forall ami_id w0 existing_clusters w1 new_asgs w2 w3 done item rest
         elbs_to_monitor w4 e w5,
  discover env ami_id w0 = (Ret existing_clusters, w1) ->
  create_all env ami_id (dict_keys env existing_clusters) w1
    = (Ret new_asgs, w2) ->
  wait_for_in_service env (dict_values env new_asgs) 300 w2 = (Ret tt, w3) ->
  dict_items env new_asgs = done ++ item :: rest ->
  for_each (activate_one env) done [] w3 = (Ret elbs_to_monitor, w4) ->
  enable_and_lookup env elbs_to_monitor (snd item) w4 = (Raise e, w5) ->
  exists r w6,
    disable_asg env (PStr (snd item)) w5 = (r, w6) /\
    deploy env ami_id w0 =
      (match r with
       | Ret _ => Raise e
       | Raise e' => Raise e'
       | Diverge => Diverge
       end, w6) /\
    r <> Diverge /\
    deactivations (emitted w0 w6) = [PStr (snd item)] /\
    activations (emitted w0 w6) = map snd (done ++ [item]).
Proof.
  intros ami_id w0 existing w1 new_asgs w2 w3 done item rest elbs w4 e w5
    H1 H2 H3 Hi H4 H5.
  destruct (disable_asg env (PStr (snd item)) w5) as [r w6] eqn:H6.
  exists r, w6. split; [reflexivity|]. split; [|split].
  - unfold deploy. rewrite (bind_ret_eq _ _ _ _ _ H1).
    rewrite (bind_ret_eq _ _ _ _ _ H2). rewrite (bind_ret_eq _ _ _ _ _ H3).
    unfold activate_all. rewrite Hi.
    assert (A : for_each (activate_one env) (done ++ item :: rest) [] w3 =
                (match r with
                 | Ret _ => Raise e
                 | Raise e' => Raise e'
                 | Diverge => Diverge
                 end, w6)).
    { rewrite for_each_app, (bind_ret_eq _ _ _ _ _ H4). cbn [for_each].
      unfold bind at 1. unfold activate_one.
      rewrite (try_raise_eq _ _ _ _ _ H5). unfold bind. rewrite H6.
      destruct r; reflexivity. }
    unfold bind at 1. rewrite A. destruct r; reflexivity.
  - pose proof (total_disable_asg (PStr (snd item)) w5) as T.
    now rewrite H6 in T.
  - destruct (discover_run _ _ _ _ H1) as (t1 & E1 & Q1).
    destruct (create_all_requests _ _ _ _ _ _ H2) as (t2 & E2 & Q2).
    destruct (wait_for_in_service_run _ _ _ _ _ H3) as (t3 & E3 & Q3).
    destruct (activate_all_requests _ _ _ _ _ H4) as (t4 & E4 & Q4).
    destruct (enable_and_lookup_run _ _ _ _ _ H5) as (t5 & E5 & Q5).
    destruct (disable_asg_run _ _ _ _ H6) as (t6 & E6 & Q6).
    assert (E : trace w6 = trace w0 ++ t1 ++ t2 ++ t3 ++ t4 ++ t5 ++ t6).
    { rewrite E6, E5, E4, E3, E2, E1, <- !app_assoc. reflexivity. }
    rewrite <- activations_requests, <- deactivations_requests.
    rewrite (emitted_app _ _ _ E), !requests_app, Q1, Q2, Q3, Q4, Q5, Q6.
    cbn [app].
    rewrite !deactivations_app, !activations_app, deactivations_create,
      activations_create, deactivations_activate, activations_activate.
    simpl. now rewrite map_app.
Qed.

(** C2, amended. When the wait for the load balancers raises [e] and every
    deactivation of the rollback succeeds, [deploy] has invoked
    [disable_asg] once for each entry of the dictionary of the new groups,
    with the name [new_asg] returned for the cluster, and for nothing
    else: the group lists of [existing_clusters] are not retired, and a
    group of [existing_clusters] is deactivated only when [new_asg]
    returned its name; and [deploy] raises [e]. *)
Theorem deploy_rolls_back_new_asgs_on_elb_failure :
  forall ami_id w0 existing_clusters w1 new_asgs w2 w3 elbs_to_monitor w4 e
         w5 w6,
  discover env ami_id w0 = (Ret existing_clusters, w1) ->
  create_all env ami_id (dict_keys env existing_clusters) w1
    = (Ret new_asgs, w2) ->
  wait_for_in_service env (dict_values env new_asgs) 300 w2 = (Ret tt, w3) ->
  activate_all env new_asgs w3 = (Ret elbs_to_monitor, w4) ->
  wait_for_healthy_elbs env elbs_to_monitor 600 w4 = (Raise e, w5) ->
  pull_out env (dict_items env new_asgs) w5 = (Ret tt, w6) ->
  deploy env ami_id w0 = (Raise e, w6) /\
  deactivations (emitted w0 w6) =
    map (fun item => PStr (snd item)) (dict_items env new_asgs) /\
  Permutation (deactivations (emitted w0 w6))
    (map (fun item => PStr (snd item)) new_asgs) /\
  (forall asg, In asg (deactivations (emitted w0 w6)) ->
     exists cluster name,
       asg = PStr name /\ dict_get cluster new_asgs = Some name) /\
  (forall groups, ~ In (PList groups) (deactivations (emitted w0 w6))) /\
  (forall cluster groups asg,
     dict_get cluster existing_clusters = Some groups ->
     In asg groups ->
     (forall c, dict_get c new_asgs <> Some asg) ->
     ~ In (PStr asg) (deactivations (emitted w0 w6))).
Proof.
  intros ami_id w0 existing w1 new_asgs w2 w3 elbs w4 e w5 w6
    H1 H2 H3 H4 H5 H6.
  assert (ND : NoDup (map fst new_asgs)).
  { apply (create_all_NoDup _ _ _ _ _ _ H2). constructor. }
  assert (D : deactivations (emitted w0 w6) =
              map (fun item => PStr (snd item)) (dict_items env new_asgs)).
  { destruct (discover_run _ _ _ _ H1) as (t1 & E1 & Q1).
    destruct (create_all_requests _ _ _ _ _ _ H2) as (t2 & E2 & Q2).
    destruct (wait_for_in_service_run _ _ _ _ _ H3) as (t3 & E3 & Q3).
    destruct (activate_all_requests _ _ _ _ _ H4) as (t4 & E4 & Q4).
    destruct (wait_for_healthy_elbs_run _ _ _ _ _ H5) as (t5 & E5 & Q5).
    destruct (disable_all_requests _ _ _ _ _ _ H6) as (t6 & E6 & Q6).
    assert (E : trace w6 = trace w0 ++ t1 ++ t2 ++ t3 ++ t4 ++ t5 ++ t6).
    { rewrite E6, E5, E4, E3, E2, E1, <- !app_assoc. reflexivity. }
    rewrite <- deactivations_requests.
    rewrite (emitted_app _ _ _ E), !requests_app, Q1, Q2, Q3, Q4, Q5, Q6.
    cbn [app].
    rewrite !deactivations_app, deactivations_create,
      deactivations_activate.
    apply (deactivations_deactivate (fun item => PStr (snd item))). }
  assert (Named : forall asg, In asg (deactivations (emitted w0 w6)) ->
            exists cluster name,
              asg = PStr name /\ dict_get cluster new_asgs = Some name).
  { rewrite D. intros asg I. apply in_map_iff in I.
    destruct I as ([cluster name] & <- & I).
    exists cluster, name. split; [reflexivity|].
    apply dict_get_In; [exact ND|].
    eapply Permutation_in; [apply dict_items_perm; exact ND | exact I]. }
  split; [|split; [exact D|split; [|split; [exact Named|split]]]].
  - unfold deploy. rewrite (bind_ret_eq _ _ _ _ _ H1).
    rewrite (bind_ret_eq _ _ _ _ _ H2). rewrite (bind_ret_eq _ _ _ _ _ H3).
    rewrite (bind_ret_eq _ _ _ _ _ H4). apply bind_raise_eq.
    unfold await_elbs. rewrite (try_raise_eq _ _ _ _ _ H5).
    now rewrite (bind_ret_eq _ _ _ _ _ H6).
  - rewrite D. apply Permutation_map. now apply dict_items_perm.
  - intros groups I. destruct (Named _ I) as (c & name & E & _).
    discriminate E.
  - intros cluster groups asg _ _ Fresh I.
    destruct (Named _ I) as (c & name & E & G).
    inversion E; subst name. exact (Fresh c G).
Qed.

(** C10. When, in the rollback that follows a failure of the wait for the
    load balancers, [disable_asg] raises [e'] for a new group, after the
    groups [done] before it were deactivated, [deploy] raises [e'] (the
    exception of the wait is lost) and [disable_asg] was invoked for the
    groups up to the failing one and for no other. *)
Theorem deploy_rollback_stops_at_failing_deactivation :
  forall ami_id w0 existing_clusters w1 new_asgs w2 w3 elbs_to_monitor w4 e
         w5 done item rest w6 e' w7,
  discover env ami_id w0 = (Ret existing_clusters, w1) ->
  create_all env ami_id (dict_keys env existing_clusters) w1
    = (Ret new_asgs, w2) ->
  wait_for_in_service env (dict_values env new_asgs) 300 w2 = (Ret tt, w3) ->
  activate_all env new_asgs w3 = (Ret elbs_to_monitor, w4) ->
  wait_for_healthy_elbs env elbs_to_monitor 600 w4 = (Raise e, w5) ->
  dict_items env new_asgs = done ++ item :: rest ->
  pull_out env done w5 = (Ret tt, w6) ->
  disable_asg env (PStr (snd item)) w6 = (Raise e', w7) ->
  deploy env ami_id w0 = (Raise e', w7) /\
  deactivations (emitted w0 w7) =
    map (fun item => PStr (snd item)) (done ++ [item]).
Proof.
  intros ami_id w0 existing w1 new_asgs w2 w3 elbs w4 e w5 done item rest
    w6 e' w7 H1 H2 H3 H4 H5 Hi H6 H7.
  split.
  - unfold deploy. rewrite (bind_ret_eq _ _ _ _ _ H1).
    rewrite (bind_ret_eq _ _ _ _ _ H2). rewrite (bind_ret_eq _ _ _ _ _ H3).
    rewrite (bind_ret_eq _ _ _ _ _ H4). apply bind_raise_eq.
    unfold await_elbs. rewrite (try_raise_eq _ _ _ _ _ H5).
    apply bind_raise_eq. rewrite Hi. unfold pull_out in *.
    rewrite for_each_app, (bind_ret_eq _ _ _ _ _ H6). cbn [for_each].
    now apply bind_raise_eq.
  - destruct (discover_run _ _ _ _ H1) as (t1 & E1 & Q1).
    destruct (create_all_requests _ _ _ _ _ _ H2) as (t2 & E2 & Q2).
    destruct (wait_for_in_service_run _ _ _ _ _ H3) as (t3 & E3 & Q3).
    destruct (activate_all_requests _ _ _ _ _ H4) as (t4 & E4 & Q4).
    destruct (wait_for_healthy_elbs_run _ _ _ _ _ H5) as (t5 & E5 & Q5).
    destruct (disable_all_requests _ _ _ _ _ _ H6) as (t6 & E6 & Q6).
    destruct (disable_asg_run _ _ _ _ H7) as (t7 & E7 & Q7).
    assert (E : trace w7 =
                trace w0 ++ t1 ++ t2 ++ t3 ++ t4 ++ t5 ++ t6 ++ t7).
    { rewrite E7, E6, E5, E4, E3, E2, E1, <- !app_assoc. reflexivity. }
    rewrite <- deactivations_requests.
    rewrite (emitted_app _ _ _ E), !requests_app, Q1, Q2, Q3, Q4, Q5, Q6, Q7.
    cbn [app].
    rewrite !deactivations_app, deactivations_create,
      deactivations_activate.
    rewrite (deactivations_deactivate (fun item => PStr (snd item))).
    simpl. now rewrite map_app.
Qed.

(** ** Activation comes after the instance health gate *)

Lemma split_after {X} (Q : X -> Prop) (a b : list X) x post : forall pre,
  Forall Q a -> ~ Q x -> pre ++ x :: post = a ++ b ->
  exists pre', pre = a ++ pre' /\ pre' ++ x :: post = b.
Proof.
  induction a as [|y a IH]; intros pre F N E.
  - exists pre. auto.
  - inversion F as [|? ? Qy F']; subst.
    destruct pre as [|z pre]; simpl in E; inversion E; subst.
    + contradiction.
    + destruct (IH pre F' N H1) as (pre' & -> & E').
      exists pre'. auto.
Qed.








(** On the path without failure [deploy] invokes [disable_asg] once for
    each cluster it discovered, with the list of the groups of the
    cluster. *)
Lemma deploy_retires_by_cluster :
  forall ami_id w0 existing_clusters w1 new_asgs w2 w3 elbs_to_monitor w4 w5
         w6,
  discover env ami_id w0 = (Ret existing_clusters, w1) ->
  create_all env ami_id (dict_keys env existing_clusters) w1
    = (Ret new_asgs, w2) ->
  wait_for_in_service env (dict_values env new_asgs) 300 w2 = (Ret tt, w3) ->
  activate_all env new_asgs w3 = (Ret elbs_to_monitor, w4) ->
  wait_for_healthy_elbs env elbs_to_monitor 600 w4 = (Ret tt, w5) ->
  retire env (dict_items env existing_clusters) w5 = (Ret tt, w6) ->
  deploy env ami_id w0 = (Ret tt, w6) /\
  deactivations (emitted w0 w6) =
    map (fun item => PList (snd item)) (dict_items env existing_clusters).
Proof.
  intros ami_id w0 existing w1 new_asgs w2 w3 elbs w4 w5 w6
    H1 H2 H3 H4 H5 H6.
  split.
  - unfold deploy. rewrite (bind_ret_eq _ _ _ _ _ H1).
    rewrite (bind_ret_eq _ _ _ _ _ H2). rewrite (bind_ret_eq _ _ _ _ _ H3).
    rewrite (bind_ret_eq _ _ _ _ _ H4).
    unfold await_elbs.
    now rewrite (bind_ret_eq _ _ _ _ _ (try_ret_eq _ _ _ _ _ H5)).
  - destruct (discover_run _ _ _ _ H1) as (t1 & E1 & Q1).
    destruct (create_all_requests _ _ _ _ _ _ H2) as (t2 & E2 & Q2).
    destruct (wait_for_in_service_run _ _ _ _ _ H3) as (t3 & E3 & Q3).
    destruct (activate_all_requests _ _ _ _ _ H4) as (t4 & E4 & Q4).
    destruct (wait_for_healthy_elbs_run _ _ _ _ _ H5) as (t5 & E5 & Q5).
    destruct (disable_all_requests _ _ _ _ _ _ H6) as (t6 & E6 & Q6).
    assert (E : trace w6 = trace w0 ++ t1 ++ t2 ++ t3 ++ t4 ++ t5 ++ t6).
    { rewrite E6, E5, E4, E3, E2, E1, <- !app_assoc. reflexivity. }
    rewrite <- deactivations_requests.
    rewrite (emitted_app _ _ _ E), !requests_app, Q1, Q2, Q3, Q4, Q5, Q6.
    cbn [app].
    rewrite !deactivations_app, deactivations_create,
      deactivations_activate.
    apply (deactivations_deactivate (fun item => PList (snd item))).
Qed.

End Properties.

(** * The scenarios of the specification *)

Section Runs.

Import Scenario.

(** C1. A cluster with the two old groups [edx-edxapp-v009] and
    [edx-edxapp-v010], every step succeeding: [deploy] ends without an
    exception after a single invocation of [disable_asg], whose argument
    is the list of the two groups, where one invocation for each group,
    with the name of the group, is expected.  With the single old group
    [edx-edxapp-v010] the one invocation has the list of that group for
    its argument, which the request encodes as the name itself. *)
Theorem deploy_retires_a_cluster_with_one_call :
  let two_old :=
    deploy (scripted edxapp2 ["edx-edxapp-v009"; "edx-edxapp-v010"]
              (tasks []) (inr tt)) "ami-1" start in
  let one_old :=
    deploy (scripted edxapp ["edx-edxapp-v010"] (tasks []) (inr tt))
      "ami-1" start in
  (fst two_old = Ret tt /\
   deactivations (trace (snd two_old)) =
     [PList ["edx-edxapp-v009"; "edx-edxapp-v010"]] /\
   ~ In (PStr "edx-edxapp-v009") (deactivations (trace (snd two_old))) /\
   ~ In (PStr "edx-edxapp-v010") (deactivations (trace (snd two_old)))) /\
  (fst one_old = Ret tt /\
   deactivations (trace (snd one_old)) = [PList ["edx-edxapp-v010"]] /\
   form_encode (PList ["edx-edxapp-v010"]) =
     form_encode (PStr "edx-edxapp-v010")).
Proof.
  vm_compute. repeat split; intros [H|[]]; discriminate.
Qed.

(** Evaluate the run on the left of an equation. *)
Ltac run := vm_compute; reflexivity.


(** C9 as stated does not hold for every timeout: a timeout of -7 * 10^10
    seconds leads before the year 1, and the call raises [OverflowError],
    not [TimeoutException]. *)
Lemma wait_for_task_completion_overflow_on_negative_timeout :
  ~ (forall env task_url timeout w,
       timeout <= 0 ->
       exists msg,
         fst (wait_for_task_completion env task_url timeout w) =
           Raise (TimeoutException msg)).
Proof.
  intros H.
  destruct (H never_done "task/1" (-70000000000) today) as [msg E]; [lia|].
  vm_compute in E. discriminate E.
Qed.


Lemma wait_for_task_completion_nonpositive_witness :
  0 <= 0 /\
  (exists w',
     wait_for_task_completion (scripted [] [] (tasks []) (inr tt)) "task/1" 0
       start =
       (Raise (TimeoutException "Timedout while waiting for task task/1.json"),
        w') /\
     emitted start w' = [CUtcnow; CUtcnow] /\
     polls (emitted start w') = []) /\
  fst (wait_for_task_completion never_done "task/1" (-70000000000) today) =
    Raise OverflowError.
Proof.
  split; [lia|]. split.
  - destruct (wait_for_task_completion_nonpositive_timeout
                (scripted [] [] (tasks []) (inr tt)) "task/1" 0 start)
      as [A _]; [lia|].
    exact (A eq_refl).
  - destruct (wait_for_task_completion_nonpositive_timeout
                never_done "task/1" (-70000000000) today) as [_ B]; [lia|].
    destruct (B eq_refl) as [R _]. now rewrite R.
Defined.

(** A creation task that fails with the log ["boom"], and one that
    completes. *)
Lemma new_asg_witness :
  (exists msg w2,
     new_asg (scripted edxapp ["edx-edxapp-v010"]
                (tasks ["task/create/edx-edxapp.json"]) (inr tt))
       "edx-edxapp" "ami-1" start = (Raise (BackendError msg), w2) /\
     contains msg "boom" /\
     cluster_queries (emitted start w2) = []) /\
  (exists w3,
     new_asg (scripted edxapp ["edx-edxapp-v010"] (tasks []) (inr tt))
       "edx-edxapp" "ami-1" start = (Ret "edx-edxapp-v011", w3) /\
     cluster_queries (emitted start w3) = ["edx-edxapp"]).
Proof.
  split.
  - edestruct (new_asg_fails_with_log_or_returns_last
                 (scripted edxapp ["edx-edxapp-v010"]
                    (tasks ["task/create/edx-edxapp.json"]) (inr tt))
                 "edx-edxapp" "ami-1" start) as [F _].
    + reflexivity.
    + run.
    + destruct (F "boom") as (msg & H); [reflexivity | reflexivity |].
      eexists. eexists. exact H.
  - edestruct (new_asg_fails_with_log_or_returns_last
                 (scripted edxapp ["edx-edxapp-v010"] (tasks []) (inr tt))
                 "edx-edxapp" "ami-1" start) as [_ S].
    + reflexivity.
    + run.
    + apply (S "completed" (map record_of ["edx-edxapp-v010"; "edx-edxapp-v011"])
               ["edx-edxapp-v010"] "edx-edxapp-v011");
        [reflexivity | discriminate | reflexivity | reflexivity].
Defined.

Lemma clusters_for_asgs_witness :
  exists d w',
    clusters_for_asgs (scripted edxapp_worker ["edx-worker-v004"] (tasks [])
                         (inr tt)) ["edx-worker-v004"] start = (Ret d, w') /\
    emitted start w' = [CGetClusterList] /\
    dict_get "edx-worker" d = Some ["edx-worker-v004"] /\
    dict_get "edx-edxapp" d = None.
Proof.
  destruct (clusters_for_asgs_returns_matching_clusters
              (scripted edxapp_worker ["edx-worker-v004"] (tasks []) (inr tt))
              ["edx-worker-v004"] edxapp_worker start)
    as (d & w' & R & E & Snd & _ & Iff).
  - reflexivity.
  - repeat constructor; discriminate.
  - exists d, w'. split; [exact R|]. split; [exact E|]. split.
    + apply Iff.
      * repeat constructor; simpl; intuition discriminate.
      * exists (cluster_of "edx-worker" ["edx-worker-v004"]).
        split; [right; now left|].
        repeat split. exists "edx-worker-v004". split; now left.
    + destruct (dict_get "edx-edxapp" d) as [groups|] eqn:G; [|reflexivity].
      exfalso. destruct (Snd _ _ G) as (r & I & Mc & Mg & a & Ia & Ir).
      destruct I as [<-|[<-|[]]]; [|discriminate].
      inversion Mg; subst groups.
      destruct Ia as [<-|[]]. destruct Ir as [Ir|[]]. discriminate.
Defined.

(** Two clusters, the creation of the second group fails. *)
Lemma deploy_creation_failure_witness :
  exists w3,
    deploy (scripted edxapp_worker two_clusters
              (tasks ["task/create/edx-worker.json"]) (inr tt)) "ami-1" start
      = (Raise (BackendError (new_asg_failed_msg "boom")), w3) /\
    creations (emitted start w3) =
      [("edx-edxapp", "ami-1"); ("edx-worker", "ami-1")] /\
    activations (emitted start w3) = [] /\
    deactivations (emitted start w3) = [].
Proof.
  eexists.
  eapply (deploy_reraises_creation_failure
            (scripted edxapp_worker two_clusters
               (tasks ["task/create/edx-worker.json"]) (inr tt))
            "ami-1" start _ _ ["edx-edxapp"] "edx-worker" []).
  - run.
  - reflexivity.
  - run.
  - run.
Defined.

(** Two clusters, the activation of the second new group fails. *)
Lemma deploy_activation_failure_witness :
  exists w6,
    deploy (scripted edxapp_worker two_clusters
              (tasks ["task/activate/edx-worker-v011.json"]) (inr tt))
      "ami-1" start
      = (Raise (BackendError (enable_failed_msg "boom")), w6) /\
    deactivations (emitted start w6) = [PStr "edx-worker-v011"] /\
    activations (emitted start w6) = ["edx-edxapp-v011"; "edx-worker-v011"].
Proof.
  edestruct deploy_deactivates_only_the_failing_asg
    with (env := scripted edxapp_worker two_clusters
                   (tasks ["task/activate/edx-worker-v011.json"]) (inr tt))
         (ami_id := "ami-1") (w0 := start)
         (done := [("edx-edxapp", "edx-edxapp-v011")])
         (item := ("edx-worker", "edx-worker-v011"))
         (rest := @nil (string * string))
    as (r & w6 & D & R & _ & De & Ac).
  - run.
  - run.
  - run.
  - reflexivity.
  - run.
  - run.
  - vm_compute in D. inversion D; subst r w6. clear D.
    eexists. split; [exact R|]. split; [exact De | exact Ac].
Defined.

(** C8 as stated does not hold: when the deactivation that follows a
    failed activation raises too, [deploy] does not raise the exception of
    the activation. *)
Lemma deploy_activation_error_can_be_masked :
  ~ (forall env ami_id w0 existing_clusters w1 new_asgs w2 w3 done item rest
            elbs_to_monitor w4 e w5,
       discover env ami_id w0 = (Ret existing_clusters, w1) ->
       create_all env ami_id (dict_keys env existing_clusters) w1
         = (Ret new_asgs, w2) ->
       wait_for_in_service env (dict_values env new_asgs) 300 w2
         = (Ret tt, w3) ->
       dict_items env new_asgs = done ++ item :: rest ->
       for_each (activate_one env) done [] w3 = (Ret elbs_to_monitor, w4) ->
       enable_and_lookup env elbs_to_monitor (snd item) w4 = (Raise e, w5) ->
       fst (deploy env ami_id w0) = Raise e).
Proof.
  intros H.
  eassert (X : fst (deploy failing_rollback "ami-1" start) = Raise _).
  { eapply H with (done := [("edx-edxapp", "edx-edxapp-v011")])
                  (item := ("edx-worker", "edx-worker-v011"))
                  (rest := @nil (string * string));
      [run | run | run | reflexivity | run | run]. }
  vm_compute in X. discriminate X.
Qed.

(** C2 as stated does not hold: when the group list of a cluster does not
    show the group that was created, [new_asg] returns the name of an old
    group, and the rollback deactivates it. *)
Lemma deploy_rollback_can_deactivate_an_old_asg :
  ~ (forall env ami_id w0 existing_clusters w1 new_asgs w2 w3 elbs_to_monitor
            w4 e w5 w6,
       discover env ami_id w0 = (Ret existing_clusters, w1) ->
       create_all env ami_id (dict_keys env existing_clusters) w1
         = (Ret new_asgs, w2) ->
       wait_for_in_service env (dict_values env new_asgs) 300 w2
         = (Ret tt, w3) ->
       activate_all env new_asgs w3 = (Ret elbs_to_monitor, w4) ->
       wait_for_healthy_elbs env elbs_to_monitor 600 w4 = (Raise e, w5) ->
       pull_out env (dict_items env new_asgs) w5 = (Ret tt, w6) ->
       forall cluster groups asg,
         dict_get cluster existing_clusters = Some groups ->
         In asg groups ->
         ~ In (PStr asg) (deactivations (emitted w0 w6))).
Proof.
  intros H.
  eassert (X : ~ In (PStr "edx-edxapp-v010")
                   (deactivations (emitted start _))).
  { eapply H with (env := stale_lists) (ami_id := "ami-1") (w0 := start)
                  (cluster := "edx-edxapp");
      [run | run | run | run | run | run | run | now left]. }
  apply X. vm_compute. now left.
Qed.

(** Two clusters, the load balancers never become healthy. *)
Lemma deploy_elb_failure_witness :
  exists w6,
    deploy (scripted edxapp_worker two_clusters (tasks []) (inl gate_timeout))
      "ami-1" start = (Raise gate_timeout, w6) /\
    deactivations (emitted start w6) =
      [PStr "edx-edxapp-v011"; PStr "edx-worker-v011"].
Proof.
  edestruct (deploy_rolls_back_new_asgs_on_elb_failure
               (scripted edxapp_worker two_clusters (tasks [])
                  (inl gate_timeout)) "ami-1" start)
    as (R & De & _).
  - run.
  - run.
  - run.
  - run.
  - run.
  - run.
  - eexists. split; [exact R | exact De].
Defined.

(** The same, and the deactivation of the first new group fails. *)
Lemma deploy_rollback_failure_witness :
  exists w7,
    deploy (scripted edxapp_worker two_clusters
              (tasks ["task/deactivate/edx-edxapp-v011.json"])
              (inl gate_timeout)) "ami-1" start
      = (Raise (BackendError (disable_failed_msg "boom")), w7) /\
    deactivations (emitted start w7) = [PStr "edx-edxapp-v011"].
Proof.
  eexists.
  eapply (deploy_rollback_stops_at_failing_deactivation
            (scripted edxapp_worker two_clusters
               (tasks ["task/deactivate/edx-edxapp-v011.json"])
               (inl gate_timeout)) "ami-1" start
            _ _ _ _ _ _ _ _ _ [] ("edx-edxapp", "edx-edxapp-v011")
            [("edx-worker", "edx-worker-v011")]).
  - run.
  - run.
  - run.
  - run.
  - run.
  - reflexivity.
  - run.
  - run.
Defined.


End Runs.

(** * Further properties of the module *)

Section Further.

Variable env : environment.

(** ** Task poller *)

(** The run of [wait_for_task_completion], seen from the world it starts
    in. *)
Lemma wait_shape task_url timeout w :
  let u := json_url task_url in
  exists r w' n tail,
    wait_for_task_completion env task_url timeout w = (r, w') /\
    emitted w w' = CUtcnow :: rounds n u ++ tail /\
    (n <= Z.to_nat timeout)%nat /\
    (forall k, (k < n)%nat ->
       running_at env (trace w ++ CUtcnow :: rounds k u ++ [CUtcnow]) u) /\
    ((tail = [CUtcnow] /\ r = Raise (TimeoutException (timed_out_msg u)))
     \/
     (tail = [CUtcnow; CGetTask u] /\ (n < Z.to_nat timeout)%nat /\
      last_poll env (trace w ++ CUtcnow :: rounds n u ++ [CUtcnow]) u r)
     \/
     (tail = [] /\ n = O /\ r = Raise OverflowError)).
Proof.
  intros u.
  unfold wait_for_task_completion, bind, utcnow, plus_seconds. cbv zeta.
  fold u. set (w1 := tick env CUtcnow 0 w).
  destruct (in_range (now w1) timeout).
  2:{ exists (Raise OverflowError), w1, O, [].
      split; [reflexivity|]. split; [apply emitted_app; reflexivity|].
      split; [lia|]. split; [intros k Hk; lia|]. right. right. auto. }
  unfold ret at 1.
  destruct (wait_loop_run env (Z.to_nat timeout) u
              (now w1 + 1000000 * timeout) w1)
    as (r & w' & n & tail & R & E & L & Run & Fin); [lia|].
  assert (Hh : forall rest, trace w1 ++ rest = trace w ++ CUtcnow :: rest).
  { intros rest. subst w1. simpl. apply history_snoc. }
  exists r, w', n, tail. split; [exact R|]. split.
  { apply emitted_app. rewrite E. apply Hh. }
  split; [exact L|]. split.
  { intros k Hk. rewrite <- Hh. now apply Run. }
  destruct Fin as [(-> & -> & _)|(-> & Hn & LP)]; [now left|].
  right. left. repeat split; auto. now rewrite <- Hh.
Qed.

(** Where a status request sits in the run. *)
Lemma wait_poll_position u n tail pre post :
  tail = [CUtcnow] \/ tail = [CUtcnow; CGetTask u] ->
  CUtcnow :: rounds n u ++ tail = pre ++ CGetTask u :: post ->
  exists k, pre = CUtcnow :: rounds k u ++ [CUtcnow] /\
    ((k < n)%nat \/ (k = n /\ tail = [CUtcnow; CGetTask u] /\ post = [])).
Proof.
  intros Ht E. destruct pre as [|c pre]; [discriminate|].
  simpl in E. inversion E as [[Ec Er]]. subst c.
  destruct (rounds_split u post n tail pre Ht Er) as [k [-> Hk]].
  now exists k.
Qed.

(** X1. A poll that fails ends the call with its exception, and a status
    document without the key [status] ends it with [KeyError]: the poller
    does not poll again. *)
Theorem wait_for_task_completion_does_not_retry :
  forall task_url timeout w pre post,
  emitted w (snd (wait_for_task_completion env task_url timeout w)) =
    pre ++ CGetTask (json_url task_url) :: post ->
  (forall e,
     task_json env (trace w ++ pre) (json_url task_url) = inl e ->
     fst (wait_for_task_completion env task_url timeout w) = Raise e /\
     post = []) /\
  (forall response,
     task_json env (trace w ++ pre) (json_url task_url) = inr response ->
     dict_get "status" response = None ->
     fst (wait_for_task_completion env task_url timeout w) =
       Raise (KeyError "status") /\
     post = []).
Proof.
  intros task_url timeout w pre post E.
  destruct (wait_shape task_url timeout w)
    as (r & w' & n & tail & R & Em & _ & Run & Fin).
  rewrite R in *. cbn [fst snd] in *. rewrite Em in E.
  assert (Ht : tail = [CUtcnow] \/
               tail = [CUtcnow; CGetTask (json_url task_url)]).
  { destruct Fin as [(-> & _)|[(-> & _)|(-> & -> & _)]]; auto.
    destruct pre as [|c [|c' pre]]; discriminate E. }
  destruct (wait_poll_position _ _ _ _ _ Ht E) as [k [-> Hk]].
  destruct Hk as [Hk|(-> & -> & ->)].
  - destruct (Run k Hk) as (p & s & Q & St & _).
    split; [intros e Qe | intros p' Qp Sp]; congruence.
  - destruct Fin as [(D & _)|[(_ & _ & LP)|(D & _)]]; try discriminate.
    split; [intros e Qe | intros p' Qp Sp];
      (split; [|reflexivity]); inversion LP; subst; congruence.
Qed.

Lemma string_length_app (s t : string) :
  String.length (s ++ t) = (String.length s + String.length t)%nat.
Proof. induction s; simpl; congruence. Qed.

Lemma substring_whole (t : string) : substring 0 (String.length t) t = t.
Proof. induction t; simpl; congruence. Qed.

Lemma substring_suffix (s t : string) :
  substring (String.length s) (String.length t) (s ++ t) = t.
Proof. induction s; simpl; [apply substring_whole | assumption]. Qed.

Lemma endswith_app s suffix : endswith (s ++ suffix) suffix = true.
Proof.
  unfold endswith. rewrite string_length_app.
  replace (String.length s + String.length suffix - String.length suffix)%nat
    with (String.length s) by lia.
  rewrite substring_suffix, String.eqb_refl, andb_true_r.
  apply Nat.leb_le. lia.
Qed.

Lemma polls_shape u n tail :
  tail = [CUtcnow] \/ tail = [CUtcnow; CGetTask u] ->
  Forall (eq u) (polls (CUtcnow :: rounds n u ++ tail)) /\
  length (polls (CUtcnow :: rounds n u ++ tail)) =
    (n + length (polls tail))%nat.
Proof.
  intros Ht.
  change (CUtcnow :: rounds n u ++ tail) with ([CUtcnow] ++ rounds n u ++ tail).
  rewrite !polls_app, !length_app, polls_rounds. simpl. split; [|reflexivity].
  apply Forall_app. split.
  - induction n; simpl; auto.
  - destruct Ht as [-> | ->]; simpl; auto.
Qed.

(** X2. The handle of the task gets the suffix [.json] when it lacks it, and
    only then; every status request of the poller goes to that address. *)
Theorem wait_for_task_completion_polls_json_handle :
  forall task_url timeout w,
  endswith (json_url task_url) ".json" = true /\
  json_url (json_url task_url) = json_url task_url /\
  (endswith task_url ".json" = false ->
   json_url task_url = (task_url ++ ".json")%string) /\
  Forall (eq (json_url task_url))
    (polls (emitted w
              (snd (wait_for_task_completion env task_url timeout w)))).
Proof.
  intros task_url timeout w.
  assert (En : endswith (json_url task_url) ".json" = true).
  { unfold json_url. destruct (endswith task_url ".json") eqn:E; auto.
    apply endswith_app. }
  split; [exact En|]. split; [|split].
  - unfold json_url at 1. now rewrite En.
  - intros E. unfold json_url. now rewrite E.
  - destruct (wait_shape task_url timeout w)
      as (r & w' & n & tail & R & Em & _ & _ & Fin).
    rewrite R. cbn [snd]. rewrite Em.
    destruct Fin as [(-> & _)|[(-> & _)|(-> & -> & _)]];
      [apply polls_shape; auto | apply polls_shape; auto | constructor].
Qed.

Lemma wait_polls_bound task_url timeout w :
  (length (polls (emitted w
             (snd (wait_for_task_completion env task_url timeout w))))
   <= Z.to_nat timeout)%nat.
Proof.
  destruct (wait_shape task_url timeout w)
    as (r & w' & n & tail & R & Em & L & _ & Fin).
  rewrite R. cbn [snd]. rewrite Em.
  destruct Fin as [(-> & _)|[(-> & Hn & _)|(-> & -> & _)]];
    [| |simpl; lia].
  - destruct (polls_shape (json_url task_url) n [CUtcnow]) as [_ ->];
      [auto | simpl; lia].
  - destruct (polls_shape (json_url task_url) n
                [CUtcnow; CGetTask (json_url task_url)]) as [_ ->];
      [auto | simpl; lia].
Qed.

(** ** Cluster directory *)

Lemma relevant_clusters_of_app asgs l1 : forall l2 acc,
  relevant_clusters_of asgs (l1 ++ l2) acc =
  match relevant_clusters_of asgs l1 acc with
  | inr d => relevant_clusters_of asgs l2 d
  | inl e => inl e
  end.
Proof.
  induction l1 as [|r l1 IH]; intros l2 acc; cbn [relevant_clusters_of app].
  - reflexivity.
  - destruct (rec_autoScalingGroups r); [|reflexivity].
    destruct (rec_cluster r); [|reflexivity]. apply IH.
Qed.

Lemma relevant_clusters_of_malformed asgs : forall listing acc,
  Exists malformed listing ->
  relevant_clusters_of asgs listing acc = inl BackendDataError.
Proof.
  induction listing as [|r listing IH]; intros acc Ex;
    cbn [relevant_clusters_of].
  - inversion Ex.
  - destruct (rec_autoScalingGroups r) eqn:Eg; [|reflexivity].
    destruct (rec_cluster r) eqn:Ec; [|reflexivity].
    apply IH. inversion Ex as [? ? [H|H]|]; subst; congruence.
Qed.

(** X3. A listing with a record that lacks [cluster] or [autoScalingGroups]
    makes [clusters_for_asgs] raise [BackendDataError], wherever the
    record sits and whatever the other records match. *)
Theorem clusters_for_asgs_rejects_malformed_record :
  forall asgs listing w,
  cluster_list_json env (trace w) = inr listing ->
  Exists malformed listing ->
  clusters_for_asgs env asgs w =
    (Raise BackendDataError, tick env CGetClusterList 0 w).
Proof.
  intros asgs listing w Q Ex.
  unfold clusters_for_asgs, bind, perform, pure. rewrite Q. cbn [of_reply].
  now rewrite relevant_clusters_of_malformed.
Qed.

(** X4. When several records name one cluster, the dictionary keeps the groups
    of the last of them that holds a requested group. *)
Theorem clusters_for_asgs_keeps_last_matching_record :
  forall asgs before r after c groups w,
  cluster_list_json env (trace w) = inr (before ++ r :: after) ->
  Forall well_formed (before ++ r :: after) ->
  matching asgs c groups r ->
  (forall r' groups', In r' after -> ~ matching asgs c groups' r') ->
  exists d,
    clusters_for_asgs env asgs w = (Ret d, tick env CGetClusterList 0 w) /\
    dict_get c d = Some groups.
Proof.
  intros asgs before r after c groups w Q WF Mt Last.
  apply Forall_app in WF. destruct WF as [WF1 WF2].
  inversion WF2 as [|? ? WFr WF3]; subst.
  destruct (relevant_clusters_of_spec asgs before [] WF1) as (d1 & R1 & _).
  destruct (relevant_clusters_of_spec asgs after (dict_set c groups d1) WF3)
    as (d & R & Snd & Cpl).
  exists d. split.
  - unfold clusters_for_asgs, bind, perform, pure. rewrite Q. cbn [of_reply].
    rewrite relevant_clusters_of_app, R1. cbn [relevant_clusters_of].
    destruct Mt as (Mc & Mg & Ma). rewrite Mg, Mc.
    apply existsb_py_in in Ma. rewrite Ma. now rewrite R.
  - destruct (Cpl c) as [g G].
    { left. exists groups. apply dict_get_set_same. }
    destruct (Snd c g G) as [G'|(r' & I & Mt')].
    + rewrite dict_get_set_same in G'. congruence.
    + destruct (Last r' g I Mt').
Qed.

Lemma asg_names_Some asgs : forall names,
  asg_names asgs = Some names <->
  map rec_autoScalingGroupName asgs = map Some names.
Proof.
  induction asgs as [|x asgs IH]; intros names; cbn [asg_names map].
  - split.
    + intros H. now inversion H.
    + destruct names; [reflexivity | discriminate].
  - destruct (rec_autoScalingGroupName x) as [name|].
    + destruct (asg_names asgs) as [ns|].
      * split.
        -- intros H. inversion H; subst. simpl. f_equal. now apply IH.
        -- destruct names as [|n names]; [discriminate|]. simpl.
           intros H. inversion H; subst.
           apply IH in H2. inversion H2. reflexivity.
      * split; [discriminate|].
        destruct names as [|n names]; [discriminate|]. simpl.
        intros H. inversion H. apply IH in H2. discriminate.
    + split; [discriminate|].
      destruct names; discriminate.
Qed.

Lemma asg_names_None asgs :
  In None (map rec_autoScalingGroupName asgs) -> asg_names asgs = None.
Proof.
  induction asgs as [|x asgs IH]; cbn [asg_names map]; [intros []|].
  intros [H|H].
  - now rewrite H.
  - destruct (rec_autoScalingGroupName x); [|reflexivity].
    now rewrite (IH H).
Qed.

(** X5. [asgs_for_cluster] asks for the groups of the cluster once and returns
    their names in the order of the answer; an entry without
    [autoScalingGroupName] makes it raise [BackendDataError]. *)
Theorem asgs_for_cluster_names_or_data_error :
  forall cluster asgs w,
  cluster_info_json env (trace w) cluster = inr asgs ->
  emitted w (snd (asgs_for_cluster env cluster w)) = [CGetClusterInfo cluster] /\
  (forall names,
     map rec_autoScalingGroupName asgs = map Some names ->
     fst (asgs_for_cluster env cluster w) = Ret names) /\
  (In None (map rec_autoScalingGroupName asgs) ->
   fst (asgs_for_cluster env cluster w) = Raise BackendDataError).
Proof.
  intros cluster asgs w Q.
  unfold asgs_for_cluster, bind, perform. rewrite Q. cbn [of_reply].
  split; [|split].
  - destruct (asg_names asgs); apply emitted_app; reflexivity.
  - intros names H. apply asg_names_Some in H. now rewrite H.
  - intros H. now rewrite (asg_names_None _ H).
Qed.

(** ** ASG lifecycle *)

(** The outcome of the second half of [enable_asg] and [disable_asg]:
    wait for the task, then look at its status. *)
Lemma poll_and_check msg task_url timeout w1 :
  (forall response status w2,
     wait_for_task_completion env task_url timeout w1 = (Ret response, w2) ->
     dict_get "status" response = Some status -> status <> "failed" ->
     bind (wait_for_task_completion env task_url timeout) (check_task msg) w1
       = (Ret tt, w2)) /\
  (forall response log w2,
     wait_for_task_completion env task_url timeout w1 = (Ret response, w2) ->
     dict_get "status" response = Some "failed" ->
     dict_get "log" response = Some log ->
     bind (wait_for_task_completion env task_url timeout) (check_task msg) w1
       = (Raise (BackendError (msg log)), w2)) /\
  (forall response w2,
     wait_for_task_completion env task_url timeout w1 = (Ret response, w2) ->
     dict_get "status" response = Some "failed" ->
     dict_get "log" response = None ->
     bind (wait_for_task_completion env task_url timeout) (check_task msg) w1
       = (Raise (KeyError "log"), w2)) /\
  (forall e w2,
     wait_for_task_completion env task_url timeout w1 = (Raise e, w2) ->
     bind (wait_for_task_completion env task_url timeout) (check_task msg) w1
       = (Raise e, w2)).
Proof.
  repeat split.
  - intros response status w2 W S N. rewrite (bind_ret_eq _ _ _ _ _ W).
    eapply check_task_passed; eauto.
  - intros response log w2 W S L. rewrite (bind_ret_eq _ _ _ _ _ W).
    now apply check_task_failed.
  - intros response w2 W S L. rewrite (bind_ret_eq _ _ _ _ _ W).
    unfold check_task, bind, getitem. rewrite S. cbn. now rewrite L.
  - intros e w2 W. now apply bind_raise_eq.
Qed.

Lemma contains_suffix (prefix s : string) : contains (prefix ++ s) s.
Proof. exists prefix, "". now rewrite string_app_nil_r. Qed.

(** X6. [disable_asg], once its request is accepted: it returns when the task
    ends with a status other than [failed]; a failed task raises
    [BackendError] with the log of the task in the message, or [KeyError]
    when the status document has no log; an exception of the poller (its
    timeout of 300 seconds among them) is passed on. *)
Theorem disable_asg_reports_task_outcome :
  forall asg w task_url,
  post_deactivate_url env (trace w) asg = inr task_url ->
  (forall response status w2,
     wait_for_task_completion env task_url 300
       (tick env (CPostDeactivate asg) 0 w) = (Ret response, w2) ->
     dict_get "status" response = Some status -> status <> "failed" ->
     disable_asg env asg w = (Ret tt, w2)) /\
  (forall response log w2,
     wait_for_task_completion env task_url 300
       (tick env (CPostDeactivate asg) 0 w) = (Ret response, w2) ->
     dict_get "status" response = Some "failed" ->
     dict_get "log" response = Some log ->
     disable_asg env asg w =
       (Raise (BackendError (disable_failed_msg log)), w2) /\
     contains (disable_failed_msg log) log) /\
  (forall response w2,
     wait_for_task_completion env task_url 300
       (tick env (CPostDeactivate asg) 0 w) = (Ret response, w2) ->
     dict_get "status" response = Some "failed" ->
     dict_get "log" response = None ->
     disable_asg env asg w = (Raise (KeyError "log"), w2)) /\
  (forall e w2,
     wait_for_task_completion env task_url 300
       (tick env (CPostDeactivate asg) 0 w) = (Raise e, w2) ->
     disable_asg env asg w = (Raise e, w2)).
Proof.
  intros asg w task_url P.
  assert (R : disable_asg env asg w =
              bind (wait_for_task_completion env task_url 300)
                (check_task disable_failed_msg)
                (tick env (CPostDeactivate asg) 0 w)).
  { unfold disable_asg. unfold bind at 1, perform at 1. now rewrite P. }
  rewrite R.
  destruct (poll_and_check disable_failed_msg task_url 300
              (tick env (CPostDeactivate asg) 0 w)) as (A & B & C & D).
  repeat split; eauto.
  unfold disable_failed_msg.
  exact (contains_suffix ("Failure while disabling ASG. Task Log: " ++ nl) log).
Qed.

(** X7. [enable_asg], once its request is accepted: the same, with a timeout
    of 301 seconds and its own message. *)
Theorem enable_asg_reports_task_outcome :
  forall asg w task_url,
  post_activate_url env (trace w) asg = inr task_url ->
  (forall response status w2,
     wait_for_task_completion env task_url 301
       (tick env (CPostActivate asg) 0 w) = (Ret response, w2) ->
     dict_get "status" response = Some status -> status <> "failed" ->
     enable_asg env asg w = (Ret tt, w2)) /\
  (forall response log w2,
     wait_for_task_completion env task_url 301
       (tick env (CPostActivate asg) 0 w) = (Ret response, w2) ->
     dict_get "status" response = Some "failed" ->
     dict_get "log" response = Some log ->
     enable_asg env asg w =
       (Raise (BackendError (enable_failed_msg log)), w2) /\
     contains (enable_failed_msg log) log) /\
  (forall response w2,
     wait_for_task_completion env task_url 301
       (tick env (CPostActivate asg) 0 w) = (Ret response, w2) ->
     dict_get "status" response = Some "failed" ->
     dict_get "log" response = None ->
     enable_asg env asg w = (Raise (KeyError "log"), w2)) /\
  (forall e w2,
     wait_for_task_completion env task_url 301
       (tick env (CPostActivate asg) 0 w) = (Raise e, w2) ->
     enable_asg env asg w = (Raise e, w2)).
Proof.
  intros asg w task_url P.
  assert (R : enable_asg env asg w =
              bind (wait_for_task_completion env task_url 301)
                (check_task enable_failed_msg)
                (tick env (CPostActivate asg) 0 w)).
  { unfold enable_asg. unfold bind at 1, perform at 1. now rewrite P. }
  rewrite R.
  destruct (poll_and_check enable_failed_msg task_url 301
              (tick env (CPostActivate asg) 0 w)) as (A & B & C & D).
  repeat split; eauto.
  unfold enable_failed_msg.
  exact (contains_suffix ("Failure while enabling ASG. Task Log: " ++ nl) log).
Qed.

(** What [new_asg] does with the task of the creation, once its request is
    accepted. *)
Lemma new_asg_after_task cluster ami_id w task_url :
  post_new_asg_url env (trace w) cluster ami_id = inr task_url ->
  new_asg env cluster ami_id w =
  bind (wait_for_task_completion env task_url (ASGARD_WAIT_TIMEOUT env))
    (fun response =>
       check_task new_asg_failed_msg response ;;
       asgs <- asgs_for_cluster env cluster ;;
       last_item asgs)
    (tick env (CPostNewAsg cluster ami_id) 0 w).
Proof.
  intros P. unfold new_asg. unfold bind at 1, perform at 1. now rewrite P.
Qed.

(** X8. After a task that did not fail, a cluster without groups makes
    [new_asg] raise [IndexError], and a group entry without
    [autoScalingGroupName] makes it raise [BackendDataError]. *)
Theorem new_asg_raises_on_unusable_group_list :
  forall cluster ami_id w task_url response status w2 asgs,
  post_new_asg_url env (trace w) cluster ami_id = inr task_url ->
  wait_for_task_completion env task_url (ASGARD_WAIT_TIMEOUT env)
    (tick env (CPostNewAsg cluster ami_id) 0 w) = (Ret response, w2) ->
  dict_get "status" response = Some status ->
  status <> "failed" ->
  cluster_info_json env (trace w2) cluster = inr asgs ->
  (asgs = [] ->
   new_asg env cluster ami_id w =
     (Raise IndexError, tick env (CGetClusterInfo cluster) 0 w2)) /\
  (In None (map rec_autoScalingGroupName asgs) ->
   new_asg env cluster ami_id w =
     (Raise BackendDataError, tick env (CGetClusterInfo cluster) 0 w2)).
Proof.
  intros cluster ami_id w task_url response status w2 asgs P W S N Q.
  rewrite (new_asg_after_task _ _ _ _ P), (bind_ret_eq _ _ _ _ _ W).
  rewrite (bind_ret_eq _ _ _ _ _ (check_task_passed _ _ _ _ S N)).
  unfold asgs_for_cluster, bind, perform. rewrite Q. cbn [of_reply].
  split.
  - intros ->. reflexivity.
  - intros H. now rewrite (asg_names_None _ H).
Qed.

(** X9. A request for a new group that is refused ends [new_asg] before any
    poll, and an exception of the poller (its timeout among them) ends it
    before the groups of the cluster are asked for. *)
Theorem new_asg_passes_on_failures :
  forall cluster ami_id w,
  (forall e,
     post_new_asg_url env (trace w) cluster ami_id = inl e ->
     new_asg env cluster ami_id w =
       (Raise e, tick env (CPostNewAsg cluster ami_id) 0 w)) /\
  (forall task_url e w2,
     post_new_asg_url env (trace w) cluster ami_id = inr task_url ->
     wait_for_task_completion env task_url (ASGARD_WAIT_TIMEOUT env)
       (tick env (CPostNewAsg cluster ami_id) 0 w) = (Raise e, w2) ->
     new_asg env cluster ami_id w = (Raise e, w2) /\
     cluster_queries (emitted w w2) = []).
Proof.
  intros cluster ami_id w. split.
  - intros e P. unfold new_asg, bind, perform. now rewrite P.
  - intros task_url e w2 P W. split.
    + rewrite (new_asg_after_task _ _ _ _ P). now apply bind_raise_eq.
    + destruct (wait_emits env task_url (ASGARD_WAIT_TIMEOUT env)
                  (tick env (CPostNewAsg cluster ami_id) 0 w)) as (t & E & F).
      rewrite W in E. simpl in E. rewrite history_snoc in E.
      rewrite (emitted_app _ _ _ E). simpl.
      clear E. induction F as [|c t Hc F IH]; auto.
      destruct c; simpl in *; auto; contradiction.
Qed.

Lemma snd_bind_silent {A B} (m : M A) (f : A -> M B) w :
  (forall a, silent (f a)) -> snd (bind m f w) = snd (m w).
Proof.
  intros Hf. unfold bind. destruct (m w) as [[a| |] w1]; auto. apply Hf.
Qed.

Lemma polls_after_request (c : call) task_url timeout w :
  polls [c] = [] ->
  (length (polls (emitted w
        (snd (wait_for_task_completion env task_url timeout
                (tick env c 0 w))))) <= Z.to_nat timeout)%nat.
Proof.
  intros Hc.
  pose proof (wait_polls_bound task_url timeout (tick env c 0 w)) as B.
  destruct (wait_emits env task_url timeout (tick env c 0 w)) as (t & E & _).
  rewrite (emitted_app _ _ _ E) in B.
  simpl in E. rewrite history_snoc in E.
  rewrite (emitted_app _ _ _ E).
  change (c :: t) with ([c] ++ t). now rewrite polls_app, Hc.
Qed.

(** X10. Whatever their outcome, [enable_asg] and [disable_asg] send their one
    request and no other that changes the backend, and ask for the status
    of the task at most 301 and 300 times. *)
Theorem enable_and_disable_make_one_request :
  forall w,
  (forall asg,
     requests (emitted w (snd (disable_asg env asg w))) =
       [CPostDeactivate asg] /\
     (length (polls (emitted w (snd (disable_asg env asg w)))) <= 300)%nat) /\
  (forall asg,
     requests (emitted w (snd (enable_asg env asg w))) =
       [CPostActivate asg] /\
     (length (polls (emitted w (snd (enable_asg env asg w)))) <= 301)%nat).
Proof.
  intros w. split; intros asg; split.
  - destruct (disable_asg env asg w) as [r w'] eqn:D.
    destruct (disable_asg_run env _ _ _ _ D) as (t & E & Q).
    cbn [snd]. now rewrite (emitted_app _ _ _ E).
  - unfold disable_asg. unfold bind at 1, perform at 1.
    destruct (post_deactivate_url env (trace w) asg) as [e|url];
      cbn [of_reply snd].
    + rewrite (emitted_app _ _ [CPostDeactivate asg]) by reflexivity.
      simpl. lia.
    + rewrite snd_bind_silent by (intros p; apply silent_check_task).
      now apply (polls_after_request (CPostDeactivate asg) url 300 w).
  - destruct (enable_asg env asg w) as [r w'] eqn:D.
    assert (S : starts_with (CPostActivate asg) quiet (enable_asg env asg)).
    { apply starts_enable_asg, polling_quiet. }
    destruct (starts_run _ _ _ _ _ S eq_refl D) as (t & E & Q).
    cbn [snd]. now rewrite (emitted_app _ _ _ E).
  - unfold enable_asg. unfold bind at 1, perform at 1.
    destruct (post_activate_url env (trace w) asg) as [e|url];
      cbn [of_reply snd].
    + rewrite (emitted_app _ _ [CPostActivate asg]) by reflexivity.
      simpl. lia.
    + rewrite snd_bind_silent by (intros p; apply silent_check_task).
      now apply (polls_after_request (CPostActivate asg) url 301 w).
Qed.

(** ** Deployment *)

(** X11. When the clusters of the image cannot be found, be it that [ec2] or
    the request for the cluster listing raises or that the listing is
    malformed, [deploy] raises the same exception and has sent no request
    that creates, activates or deactivates a group. *)
Theorem deploy_changes_nothing_when_discovery_fails :
  forall ami_id w0 e w1,
  discover env ami_id w0 = (Raise e, w1) ->
  deploy env ami_id w0 = (Raise e, w1) /\
  requests (emitted w0 w1) = [].
Proof.
  intros ami_id w0 e w1 H1. split.
  - unfold deploy. now apply bind_raise_eq.
  - destruct (discover_run env _ _ _ _ H1) as (t1 & E1 & Q1).
    now rewrite (emitted_app _ _ _ E1).
Qed.

(** X12. When the wait for the instances of the new groups raises, [deploy]
    raises the same exception: a group was created for each cluster, none
    was activated and none is deactivated. *)
Theorem deploy_leaves_new_asgs_when_instances_unhealthy :
  forall ami_id w0 existing_clusters w1 new_asgs w2 e w3,
  discover env ami_id w0 = (Ret existing_clusters, w1) ->
  create_all env ami_id (dict_keys env existing_clusters) w1
    = (Ret new_asgs, w2) ->
  wait_for_in_service env (dict_values env new_asgs) 300 w2 = (Raise e, w3) ->
  deploy env ami_id w0 = (Raise e, w3) /\
  requests (emitted w0 w3) =
    map (fun c => CPostNewAsg c ami_id) (dict_keys env existing_clusters) /\
  activations (emitted w0 w3) = [] /\
  deactivations (emitted w0 w3) = [].
Proof.
  intros ami_id w0 existing w1 new_asgs w2 e w3 H1 H2 H3.
  assert (Q : requests (emitted w0 w3) =
              map (fun c => CPostNewAsg c ami_id) (dict_keys env existing)).
  { destruct (discover_run env _ _ _ _ H1) as (t1 & E1 & Q1).
    destruct (create_all_requests env _ _ _ _ _ _ H2) as (t2 & E2 & Q2).
    destruct (wait_for_in_service_run env _ _ _ _ _ H3) as (t3 & E3 & Q3).
    assert (E : trace w3 = trace w0 ++ t1 ++ t2 ++ t3).
    { rewrite E3, E2, E1, <- !app_assoc. reflexivity. }
    rewrite (emitted_app _ _ _ E), !requests_app, Q1, Q2, Q3.
    now rewrite app_nil_r. }
  split; [|split; [exact Q|]].
  - unfold deploy. rewrite (bind_ret_eq _ _ _ _ _ H1).
    rewrite (bind_ret_eq _ _ _ _ _ H2). now apply bind_raise_eq.
  - rewrite <- activations_requests, <- deactivations_requests, Q.
    now rewrite activations_create, deactivations_create.
Qed.

(** X13. When every step succeeds, the requests of [deploy] that change the
    backend are, in this order: a creation for each cluster, an activation
    for each new group, and a deactivation for each cluster, whose
    argument is the list of the groups of the cluster. *)
Theorem deploy_requests_in_order :
  forall ami_id w0 existing_clusters w1 new_asgs w2 w3 elbs_to_monitor w4 w5
         w6,
  discover env ami_id w0 = (Ret existing_clusters, w1) ->
  create_all env ami_id (dict_keys env existing_clusters) w1
    = (Ret new_asgs, w2) ->
  wait_for_in_service env (dict_values env new_asgs) 300 w2 = (Ret tt, w3) ->
  activate_all env new_asgs w3 = (Ret elbs_to_monitor, w4) ->
  wait_for_healthy_elbs env elbs_to_monitor 600 w4 = (Ret tt, w5) ->
  retire env (dict_items env existing_clusters) w5 = (Ret tt, w6) ->
  deploy env ami_id w0 = (Ret tt, w6) /\
  requests (emitted w0 w6) =
    map (fun c => CPostNewAsg c ami_id) (dict_keys env existing_clusters) ++
    map (fun item => CPostActivate (snd item)) (dict_items env new_asgs) ++
    map (fun item => CPostDeactivate (PList (snd item)))
      (dict_items env existing_clusters).
Proof.
  intros ami_id w0 existing w1 new_asgs w2 w3 elbs w4 w5 w6
    H1 H2 H3 H4 H5 H6.
  split.
  - unfold deploy. rewrite (bind_ret_eq _ _ _ _ _ H1).
    rewrite (bind_ret_eq _ _ _ _ _ H2). rewrite (bind_ret_eq _ _ _ _ _ H3).
    rewrite (bind_ret_eq _ _ _ _ _ H4).
    unfold await_elbs.
    now rewrite (bind_ret_eq _ _ _ _ _ (try_ret_eq _ _ _ _ _ H5)).
  - destruct (discover_run env _ _ _ _ H1) as (t1 & E1 & Q1).
    destruct (create_all_requests env _ _ _ _ _ _ H2) as (t2 & E2 & Q2).
    destruct (wait_for_in_service_run env _ _ _ _ _ H3) as (t3 & E3 & Q3).
    destruct (activate_all_requests env _ _ _ _ _ H4) as (t4 & E4 & Q4).
    destruct (wait_for_healthy_elbs_run env _ _ _ _ _ H5) as (t5 & E5 & Q5).
    destruct (disable_all_requests env _ _ _ _ _ _ H6) as (t6 & E6 & Q6).
    assert (E : trace w6 = trace w0 ++ t1 ++ t2 ++ t3 ++ t4 ++ t5 ++ t6).
    { rewrite E6, E5, E4, E3, E2, E1, <- !app_assoc. reflexivity. }
    rewrite (emitted_app _ _ _ E), !requests_app, Q1, Q2, Q3, Q4, Q5, Q6.
    reflexivity.
Qed.

Lemma dict_items_nil {V} : dict_items env (@nil (string * V)) = [].
Proof.
  unfold dict_items. cbn [map].
  pose proof (dict_order_perm env [] (NoDup_nil _)) as P.
  apply Permutation_sym, Permutation_nil in P. now rewrite P.
Qed.

(** X14. When no cluster holds a group of the image, [deploy] creates nothing:
    it waits for the instances and for the load balancers of no group,
    and returns when both waits do. *)
Theorem deploy_without_clusters :
  forall ami_id w0 w1,
  discover env ami_id w0 = (Ret [], w1) ->
  deploy env ami_id w0 =
    (wait_for_in_service env [] 300 ;; wait_for_healthy_elbs env [] 600) w1 /\
  requests (emitted w0 (snd (deploy env ami_id w0))) = [].
Proof.
  intros ami_id w0 w1 H1.
  assert (D : deploy env ami_id w0 =
              (wait_for_in_service env [] 300 ;;
               wait_for_healthy_elbs env [] 600) w1).
  { unfold deploy. rewrite (bind_ret_eq _ _ _ _ _ H1).
    unfold dict_keys. rewrite dict_items_nil. cbn [map].
    rewrite (bind_ret_eq (create_all env ami_id []) _ w1 [] w1 eq_refl).
    unfold dict_values, activate_all. rewrite !dict_items_nil. cbn [map].
    unfold bind at 1 4.
    destruct (wait_for_in_service env [] 300 w1) as [[[]| |] w2];
      try reflexivity.
    rewrite (bind_ret_eq (for_each (activate_one env) [] []) _ w2 [] w2
               eq_refl).
    unfold await_elbs, bind, try_except, pull_out, retire.
    rewrite dict_items_nil.
    destruct (wait_for_healthy_elbs env [] 600 w2) as [[[]| |] w3];
      reflexivity. }
  split; [exact D|]. rewrite D.
  destruct (discover_run env _ _ _ _ H1) as (t1 & E1 & Q1).
  assert (Em : emits quiet (wait_for_in_service env [] 300 ;;
                            wait_for_healthy_elbs env [] 600)).
  { apply emits_bind; [|intros _]; apply emits_perform; reflexivity. }
  destruct (Em w1) as (t2 & E2 & F2).
  rewrite E1, <- app_assoc in E2.
  rewrite (emitted_app _ _ _ E2), requests_app, Q1.
  now apply requests_quiet.
Qed.

Lemma relevant_clusters_of_NoDup asgs : forall listing acc d,
  relevant_clusters_of asgs listing acc = inr d ->
  NoDup (map fst acc) -> NoDup (map fst d).
Proof.
  induction listing as [|r listing IH]; intros acc d R ND;
    cbn [relevant_clusters_of] in R.
  - now inversion R; subst.
  - destruct (rec_autoScalingGroups r); [|discriminate].
    destruct (rec_cluster r); [|discriminate].
    apply (IH _ _ R). destruct (existsb _ _); auto.
    now apply dict_set_NoDup.
Qed.

Lemma discover_NoDup ami_id w existing w' :
  discover env ami_id w = (Ret existing, w') -> NoDup (map fst existing).
Proof.
  intros H. unfold discover in H.
  apply bind_ret_inv in H. destruct H as (edc & wa & _ & H).
  apply bind_ret_inv in H. destruct H as (asgs & wb & _ & H).
  unfold clusters_for_asgs in H.
  apply bind_ret_inv in H. destruct H as (listing & wc & _ & H).
  unfold pure in H.
  destruct (relevant_clusters_of asgs listing []) as [e|d] eqn:R;
    [discriminate|].
  inversion H; subst.
  apply (relevant_clusters_of_NoDup _ _ _ _ R). constructor.
Qed.

Lemma create_all_keys ami_id clusters : forall s w d w',
  for_each (create_one env ami_id) clusters s w = (Ret d, w') ->
  NoDup (map fst s ++ clusters) ->
  map fst d = map fst s ++ clusters.
Proof.
  induction clusters as [|c clusters IH]; intros s w d w' R ND; simpl in R.
  - inversion R; subst. now rewrite app_nil_r.
  - apply bind_ret_inv in R. destruct R as (s1 & w1 & R1 & R2).
    unfold create_one, try_except, bind in R1.
    destruct (new_asg env c ami_id w) as [[a| |] w2]; try discriminate.
    inversion R1; subst.
    assert (K : map fst (dict_set c a s) = map fst s ++ [c]).
    { rewrite dict_set_keys.
      destruct (py_in c (map fst s)) eqn:I; [|reflexivity].
      apply py_in_In in I. apply NoDup_remove_2 in ND.
      exfalso. apply ND. apply in_or_app. now left. }
    rewrite (IH _ _ _ _ R2); rewrite K, <- app_assoc; [reflexivity|exact ND].
Qed.

(** X15. After the creation loop the dictionary of the new groups has exactly
    one entry for each discovered cluster, in the order of the loop, and
    [new_asg] was invoked once for each of them. *)
Theorem create_all_makes_one_group_per_cluster :
  forall ami_id w0 existing_clusters w1 new_asgs w2,
  discover env ami_id w0 = (Ret existing_clusters, w1) ->
  create_all env ami_id (dict_keys env existing_clusters) w1
    = (Ret new_asgs, w2) ->
  map fst new_asgs = dict_keys env existing_clusters /\
  Permutation (map fst new_asgs) (map fst existing_clusters) /\
  NoDup (map fst new_asgs) /\
  creations (emitted w1 w2) = map (fun c => (c, ami_id)) (map fst new_asgs).
Proof.
  intros ami_id w0 existing w1 new_asgs w2 H1 H2.
  pose proof (discover_NoDup _ _ _ _ H1) as ND.
  assert (P : Permutation (dict_keys env existing) (map fst existing)).
  { unfold dict_keys. apply Permutation_map. now apply dict_items_perm. }
  assert (NDk : NoDup (dict_keys env existing)).
  { eapply Permutation_NoDup; [apply Permutation_sym; exact P | exact ND]. }
  assert (K : map fst new_asgs = dict_keys env existing).
  { apply (create_all_keys _ _ _ _ _ _ H2). exact NDk. }
  rewrite K. repeat split; auto.
  destruct (create_all_requests env _ _ _ _ _ _ H2) as (t2 & E2 & Q2).
  rewrite (emitted_app _ _ _ E2), <- creations_requests, Q2.
  apply creations_create.
Qed.

(** ** The old groups are retired after the load balancer health gate *)

Lemma starts_quiet_emits {A} (P : call -> Prop) c (m : M A) :
  starts_with c quiet m -> P c -> (forall c', quiet c' -> P c') -> emits P m.
Proof.
  intros H Hc HP w. destruct (H w) as [t [E F]]. exists (c :: t).
  split; [exact E|]. constructor; [exact Hc|].
  eapply Forall_impl; [exact HP | exact F].
Qed.

Lemma emits_create_all_quiet (P : call -> Prop) ami_id clusters s :
  (forall c, quiet c -> P c) ->
  (forall cluster, P (CPostNewAsg cluster ami_id)) ->
  emits P (for_each (create_one env ami_id) clusters s).
Proof.
  intros HP Hc. revert s. apply emits_for_each. intros s cluster _.
  apply starts_quiet_emits with (c := CPostNewAsg cluster ami_id); auto.
  apply starts_create_one.
Qed.

Lemma emits_disable_quiet (P : call -> Prop) asg :
  (forall c, quiet c -> P c) -> P (CPostDeactivate asg) ->
  emits P (disable_asg env asg).
Proof.
  intros HP Hc.
  apply starts_quiet_emits with (c := CPostDeactivate asg); auto.
  apply starts_disable_asg, polling_quiet.
Qed.

Lemma emits_activate_all (P : call -> Prop) items s :
  (forall c, quiet c -> P c) ->
  (forall item, In item items ->
     P (CPostActivate (snd item)) /\ P (CPostDeactivate (PStr (snd item)))) ->
  emits P (for_each (activate_one env) items s).
Proof.
  intros HP Hc. revert s. apply emits_for_each. intros s item I.
  destruct (Hc item I) as [Ha Hd].
  unfold activate_one. apply emits_try.
  - apply starts_quiet_emits with (c := CPostActivate (snd item)); auto.
    apply starts_enable_and_lookup; [apply polling_quiet | reflexivity].
  - intros e. apply emits_bind; [now apply emits_disable_quiet|].
    intros _. apply silent_emits, silent_raise.
Qed.

Lemma emits_pull_out (P : call -> Prop) items :
  (forall c, quiet c -> P c) ->
  (forall item, In item items -> P (CPostDeactivate (PStr (snd item)))) ->
  emits P (pull_out env items).
Proof.
  intros HP Hc. unfold pull_out. apply emits_for_each. intros s item I.
  apply emits_disable_quiet; auto.
Qed.

Lemma emits_retire (P : call -> Prop) items :
  (forall c, quiet c -> P c) ->
  (forall item, In item items -> P (CPostDeactivate (PList (snd item)))) ->
  emits P (retire env items).
Proof.
  intros HP Hc. unfold retire. apply emits_for_each. intros s item I.
  apply emits_disable_quiet; auto.
Qed.

Lemma quiet_no_retirement c : quiet c -> no_retirement c.
Proof. intros Q groups ->. discriminate. Qed.

Lemma retire_gated_bind {A B} (m : M A) (f : A -> M B) :
  emits no_retirement m ->
  (forall a, retire_gated env (f a)) -> retire_gated env (bind m f).
Proof.
  intros Hm Hf w. destruct (Hm w) as (t1 & E1 & F1). unfold bind.
  assert (N : forall groups,
            ~ no_retirement (CPostDeactivate (PList groups))).
  { intros groups H. now apply (H groups). }
  destruct (m w) as [[a| |] w1]; simpl in *.
  - destruct (Hf a w1) as (t2 & E2 & G2).
    exists (t1 ++ t2). split; [now rewrite E2, E1, app_assoc|].
    intros pre groups post E.
    destruct (split_after _ _ _ _ _ _ F1 (N groups) (eq_sym E))
      as (pre' & -> & E').
    destruct (G2 _ _ _ (eq_sym E')) as (before & elbs & after & -> & Q).
    exists (t1 ++ before), elbs, after.
    split; [now rewrite app_assoc|].
    now rewrite app_assoc, <- E1.
  - exists t1. split; [exact E1|]. intros pre groups post E. exfalso.
    rewrite <- (app_nil_r t1) in E at 1.
    destruct (split_after _ _ _ _ _ _ F1 (N groups) (eq_sym E))
      as (pre' & _ & E').
    destruct pre'; discriminate.
  - exists t1. split; [exact E1|]. intros pre groups post E. exfalso.
    rewrite <- (app_nil_r t1) in E at 1.
    destruct (split_after _ _ _ _ _ _ F1 (N groups) (eq_sym E))
      as (pre' & _ & E').
    destruct pre'; discriminate.
Qed.

Lemma retire_gated_await {A} new_asgs elbs (m : M A) :
  emits (fun _ => True) m ->
  retire_gated env (bind (await_elbs env new_asgs elbs) (fun _ => m)).
Proof.
  intros Hm w. unfold bind at 1.
  unfold await_elbs, try_except, wait_for_healthy_elbs, perform.
  set (w1 := tick env (CWaitForHealthyElbs elbs 600) 0 w).
  destruct (ec2_wait_for_healthy_elbs env (trace w) elbs 600) as [e|[]] eqn:Q;
    cbn [of_reply].
  - destruct (emits_pull_out no_retirement (dict_items env new_asgs)
                quiet_no_retirement) with (w := w1) as (t & E & F).
    { intros item _ groups. discriminate. }
    assert (R : exists o : outcome unit,
              (pull_out env (dict_items env new_asgs) ;; raise e) w1
              = (o, snd (pull_out env (dict_items env new_asgs) w1))
              /\ forall u, o <> Ret u).
    { unfold bind.
      destruct (pull_out env (dict_items env new_asgs) w1) as [[[]|e'|] w2];
        eexists; (split; [reflexivity | discriminate]). }
    destruct R as (o & -> & No).
    exists (CWaitForHealthyElbs elbs 600 :: t). split.
    { destruct o as [u| |]; [now destruct (No u)| |]; cbn [snd];
        rewrite E; subst w1; simpl; apply history_snoc. }
    intros pre groups post Es. exfalso.
    assert (F' : Forall no_retirement (CWaitForHealthyElbs elbs 600 :: t)).
    { constructor; [intros g; discriminate | exact F]. }
    rewrite <- (app_nil_r (_ :: t)) in Es.
    destruct (split_after _ _ _ _ _ _ F'
                (fun H => H groups eq_refl) (eq_sym Es)) as (pre' & _ & E').
    destruct pre'; discriminate.
  - destruct (Hm w1) as (t & E & _).
    exists (CWaitForHealthyElbs elbs 600 :: t). split.
    { rewrite E. subst w1. simpl. apply history_snoc. }
    intros [|c pre] groups post Es; [discriminate|].
    inversion Es; subst.
    exists [], elbs, pre. split; [reflexivity|]. now rewrite app_nil_r.
Qed.

Lemma retire_gated_deploy ami_id : retire_gated env (deploy env ami_id).
Proof.
  unfold deploy. apply retire_gated_bind.
  - apply emits_discover, quiet_no_retirement.
  - intros existing. apply retire_gated_bind.
    + unfold create_all. apply emits_create_all_quiet.
      * apply quiet_no_retirement.
      * intros cluster groups. discriminate.
    + intros new_asgs. apply retire_gated_bind.
      * apply emits_perform. intros groups. discriminate.
      * intros _. apply retire_gated_bind.
        -- unfold activate_all. apply emits_activate_all.
           ++ apply quiet_no_retirement.
           ++ intros item _. split; intros groups; discriminate.
        -- intros elbs. apply retire_gated_await.
           apply emits_retire; auto.
Qed.

(** X16. In every run of [deploy], a deactivation whose argument is the group
    list of a cluster (the retirement of the old groups) comes after a
    call of [ec2.wait_for_healthy_elbs], with a timeout of 600 seconds,
    that returned without raising. *)
Theorem deploy_retires_only_after_elbs_healthy :
  forall ami_id w pre groups post,
  emitted w (snd (deploy env ami_id w)) =
    pre ++ CPostDeactivate (PList groups) :: post ->
  exists before elbs after,
    pre = before ++ CWaitForHealthyElbs elbs 600 :: after /\
    ec2_wait_for_healthy_elbs env (trace w ++ before) elbs 600 = inr tt.
Proof.
  intros ami_id w pre groups post E.
  destruct (retire_gated_deploy ami_id w) as (t & Et & G).
  rewrite (emitted_app _ _ _ Et) in E. exact (G _ _ _ E).
Qed.

(** ** Only groups whose activation was requested are rolled back *)

Lemma quiet_keeps c : quiet c -> keeps c.
Proof. intros Q asg ->. discriminate. Qed.

Lemma served_keeps t : Forall keeps t -> served t.
Proof.
  intros F pre asg post E. exfalso.
  rewrite <- (app_nil_r t) in E.
  destruct (split_after keeps t [] (CPostDeactivate (PStr asg)) post pre F)
    as (pre' & _ & E'); [intros H; now apply (H (PStr asg)) | now symmetry |].
  destruct pre'; discriminate.
Qed.

Lemma served_app t1 t2 :
  served t1 ->
  (forall pre asg post,
     t2 = pre ++ CPostDeactivate (PStr asg) :: post ->
     In (CPostActivate asg) (t1 ++ pre)) ->
  served (t1 ++ t2).
Proof.
  intros S1 S2 pre asg post E. symmetry in E.
  apply app_eq_app in E. destruct E as [l [[-> E]|[E1 E2]]].
  - now apply (S2 l asg post).
  - destruct l as [|c l].
    + simpl in E2. rewrite app_nil_r in E1. subst pre.
      rewrite <- (app_nil_r t1). now apply (S2 [] asg post).
    + inversion E2; subst. now apply (S1 pre asg l).
Qed.

Lemma serving_bind {A B} (m : M A) (f : A -> M B) :
  emits keeps m -> (forall a, serving (f a)) -> serving (bind m f).
Proof.
  intros Hm Hf w. destruct (Hm w) as (t1 & E1 & F1). unfold bind.
  destruct (m w) as [[a| |] w1]; simpl in *;
    try (exists t1; split; [exact E1 | now apply served_keeps]).
  destruct (Hf a w1) as (t2 & E2 & S2).
  exists (t1 ++ t2). split; [now rewrite E2, E1, app_assoc|].
  apply served_app; [now apply served_keeps|].
  intros pre asg post E. apply in_or_app. right. now apply (S2 pre asg post).
Qed.

(** A turn of the activation loop: the group is deactivated only after its
    activation was requested, and not at all when the turn succeeds. *)
Lemma activate_one_served acc item w :
  exists t,
    trace (snd (activate_one env acc item w)) = trace w ++ t /\
    served t /\
    (forall out, fst (activate_one env acc item w) = Ret out ->
       Forall keeps t /\ In (CPostActivate (snd item)) t).
Proof.
  unfold activate_one, try_except.
  destruct (starts_enable_and_lookup env quiet acc (snd item)
              polling_quiet eq_refl w) as (t1 & E1 & F1).
  assert (K1 : Forall keeps (CPostActivate (snd item) :: t1)).
  { constructor; [intros asg; discriminate|].
    eapply Forall_impl; [exact quiet_keeps | exact F1]. }
  destruct (enable_and_lookup env acc (snd item) w) as [[l|e|] w1];
    cbn [fst snd] in *.
  - exists (CPostActivate (snd item) :: t1).
    split; [exact E1|]. split; [now apply served_keeps|].
    intros _ _. split; [exact K1 | now left].
  - rewrite snd_bind_silent by (intros u; apply silent_raise).
    destruct (starts_disable_asg env quiet (PStr (snd item)) polling_quiet w1)
      as (t2 & E2 & F2).
    exists ((CPostActivate (snd item) :: t1) ++
            CPostDeactivate (PStr (snd item)) :: t2).
    split; [rewrite E2, E1, <- app_assoc; reflexivity|]. split.
    + apply served_app; [now apply served_keeps|].
      intros [|c pre] asg post E.
      * inversion E; subst. rewrite app_nil_r. now left.
      * exfalso. inversion E; subst.
        apply Forall_app in F2. destruct F2 as [_ F2].
        inversion F2 as [|? ? Q _]; subst. discriminate Q.
    + intros out R. exfalso. unfold bind in R.
      destruct (disable_asg env (PStr (snd item)) w1) as [[[]| |] w2];
        discriminate R.
  - exists (CPostActivate (snd item) :: t1).
    split; [exact E1|]. split; [now apply served_keeps|].
    intros out R. discriminate R.
Qed.

Lemma activate_all_served items : forall acc w,
  exists t,
    trace (snd (for_each (activate_one env) items acc w)) = trace w ++ t /\
    served t /\
    (forall out, fst (for_each (activate_one env) items acc w) = Ret out ->
       Forall keeps t /\
       forall item, In item items -> In (CPostActivate (snd item)) t).
Proof.
  induction items as [|item items IH]; intros acc w; cbn [for_each].
  - exists []. rewrite app_nil_r. split; [reflexivity|].
    split; [now apply served_keeps|]. intros _ _. split; [constructor|].
    intros item [].
  - destruct (activate_one_served acc item w) as (t1 & E1 & S1 & R1).
    unfold bind.
    destruct (activate_one env acc item w) as [[acc1| |] w1];
      cbn [fst snd] in *;
      try (exists t1; split; [exact E1|]; split; [exact S1|];
           intros out R; discriminate R).
    destruct (R1 acc1 eq_refl) as [K1 I1].
    destruct (IH acc1 w1) as (t2 & E2 & S2 & R2).
    exists (t1 ++ t2). split; [now rewrite E2, E1, app_assoc|]. split.
    + apply served_app; [exact S1|].
      intros pre asg post E. apply in_or_app. right.
      now apply (S2 pre asg post).
    + intros out R. destruct (R2 out R) as [K2 I2]. split.
      * apply Forall_app. now split.
      * intros x [<-|Hx]; apply in_or_app; [now left | right; auto].
Qed.

Lemma serving_after_instances_healthy existing_clusters new_asgs :
  serving (elbs_to_monitor <- activate_all env new_asgs ;;
           await_elbs env new_asgs elbs_to_monitor ;;
           retire env (dict_items env existing_clusters)).
Proof.
  intros w. unfold activate_all.
  destruct (activate_all_served (dict_items env new_asgs) [] w)
    as (t4 & E4 & S4 & R4).
  unfold bind at 1.
  destruct (for_each (activate_one env) (dict_items env new_asgs) [] w)
    as [[elbs| |] w4]; cbn [fst snd] in *;
    try (exists t4; split; [exact E4 | exact S4]).
  destruct (R4 elbs eq_refl) as [K4 I4].
  set (P := fun c => forall asg, c = CPostDeactivate (PStr asg) ->
                     In asg (map snd (dict_items env new_asgs))).
  assert (HQ : forall c, quiet c -> P c).
  { intros c Q asg ->. discriminate. }
  assert (Em : emits P (await_elbs env new_asgs elbs ;;
                        retire env (dict_items env existing_clusters))).
  { apply emits_bind.
    - unfold await_elbs. apply emits_try.
      + apply emits_perform. intros asg. discriminate.
      + intros e. apply emits_bind.
        * apply emits_pull_out; [exact HQ|].
          intros item I asg E. inversion E; subst. now apply in_map.
        * intros _. apply silent_emits, silent_raise.
    - intros _. apply emits_retire; [exact HQ|].
      intros item _ asg. discriminate. }
  destruct (Em w4) as (t5 & E5 & F5).
  exists (t4 ++ t5). split; [now rewrite E5, E4, app_assoc|].
  apply served_app; [exact S4|].
  intros pre asg post E. apply in_or_app. left.
  rewrite Forall_forall in F5.
  assert (I : In asg (map snd (dict_items env new_asgs))).
  { apply (F5 (CPostDeactivate (PStr asg))); [|reflexivity].
    rewrite E. apply in_or_app. right. now left. }
  apply in_map_iff in I. destruct I as (item & <- & I). now apply I4.
Qed.

Lemma serving_deploy ami_id : serving (deploy env ami_id).
Proof.
  unfold deploy. apply serving_bind.
  - apply emits_discover, quiet_keeps.
  - intros existing. apply serving_bind.
    + unfold create_all. apply emits_create_all_quiet.
      * apply quiet_keeps.
      * intros cluster asg. discriminate.
    + intros new_asgs. apply serving_bind.
      * apply emits_perform. intros asg. discriminate.
      * intros _. apply serving_after_instances_healthy.
Qed.

(** X17. In every run of [deploy], a group that is deactivated by its name (the
    rollbacks) is a group whose activation was requested before: a new
    group that was never activated is left as it was created. *)
Theorem deploy_rolls_back_only_activated_asgs :
  forall ami_id w pre asg post,
  emitted w (snd (deploy env ami_id w)) =
    pre ++ CPostDeactivate (PStr asg) :: post ->
  In (CPostActivate asg) pre.
Proof.
  intros ami_id w pre asg post E.
  destruct (serving_deploy ami_id w) as (t & Et & S).
  rewrite (emitted_app _ _ _ Et) in E. exact (S _ _ _ E).
Qed.

(** ** The load balancers that are watched *)

Lemma enable_and_lookup_ret acc asg w out w' :
  enable_and_lookup env acc asg w = (Ret out, w') ->
  exists w1 info elbs,
    enable_asg env asg w = (Ret tt, w1) /\
    In (CPostActivate asg) (trace w1) /\
    asg_info_json env (trace w1) asg = inr info /\
    elbs_of info elbs /\
    out = acc ++ elbs.
Proof.
  intros H. unfold enable_and_lookup in H.
  apply bind_ret_inv in H. destruct H as ([] & w1 & He & H).
  apply bind_ret_inv in H. destruct H as (info & w2 & Hi & H).
  apply bind_ret_inv in H. destruct H as (elbs & w3 & Hl & H).
  inversion H; subst. clear H.
  exists w1, info, elbs. split; [exact He|]. split; [|split; [|split]].
  - destruct (starts_enable_asg env (fun _ => True) asg (fun _ _ => I) w)
      as (t & E & _).
    rewrite He in E. cbn [snd] in E. rewrite E.
    apply in_or_app. right. now left.
  - unfold perform in Hi.
    destruct (asg_info_json env (trace w1) asg) as [e|i]; cbn in Hi;
      inversion Hi. reflexivity.
  - unfold load_balancer_names in Hl. unfold elbs_of.
    destruct (rec_group info) as [g|]; [|discriminate].
    destruct (rec_loadBalancerNames g) as [l|] eqn:L; [|discriminate].
    inversion Hl; subst. now exists g.
  - reflexivity.
Qed.

Lemma activate_all_elbs items : forall acc w out w',
  for_each (activate_one env) items acc w = (Ret out, w') ->
  exists lists,
    out = acc ++ concat lists /\
    Forall2
      (fun item elbs =>
         exists h info,
           In (CPostActivate (snd item)) h /\
           asg_info_json env h (snd item) = inr info /\
           elbs_of info elbs)
      items lists.
Proof.
  induction items as [|item items IH]; intros acc w out w' R;
    cbn [for_each] in R.
  - inversion R; subst. exists []. simpl. now rewrite app_nil_r.
  - apply bind_ret_inv in R. destruct R as (acc1 & w1 & R1 & R2).
    unfold activate_one, try_except in R1.
    destruct (enable_and_lookup env acc (snd item) w) as [[l|e|] w2] eqn:B.
    + inversion R1; subst.
      destruct (enable_and_lookup_ret _ _ _ _ _ B)
        as (w0 & info & elbs & _ & Ia & Q & El & ->).
      destruct (IH _ _ _ _ R2) as (lists & -> & F).
      exists (elbs :: lists). split; [simpl; now rewrite app_assoc|].
      constructor; [|exact F]. now exists (trace w0), info.
    + apply bind_ret_inv in R1. destruct R1 as (? & ? & _ & R1).
      discriminate R1.
    + discriminate R1.
Qed.

Lemma starts_await_and_retire new_asgs elbs items :
  starts_with (CWaitForHealthyElbs elbs 600) (fun _ => True)
    (await_elbs env new_asgs elbs ;; retire env items).
Proof.
  apply starts_bind.
  - unfold await_elbs. apply starts_try.
    + intros w. exists []. split; [reflexivity | constructor].
    + intros e. apply emits_bind.
      * apply emits_pull_out; auto.
      * intros _. apply silent_emits, silent_raise.
  - intros _. apply emits_retire; auto.
Qed.

(** X18. When every new group was activated, the load balancers [deploy] then
    waits for are those of the new groups, put end to end in the order of
    the loop (a load balancer two groups share is listed twice), each list
    being the one the backend gave for the group after its activation was
    requested. *)
Theorem deploy_watches_the_load_balancers_of_the_new_asgs :
  forall ami_id w0 existing_clusters w1 new_asgs w2 w3 elbs_to_monitor w4,
  discover env ami_id w0 = (Ret existing_clusters, w1) ->
  create_all env ami_id (dict_keys env existing_clusters) w1
    = (Ret new_asgs, w2) ->
  wait_for_in_service env (dict_values env new_asgs) 300 w2 = (Ret tt, w3) ->
  activate_all env new_asgs w3 = (Ret elbs_to_monitor, w4) ->
  (exists lists,
     elbs_to_monitor = concat lists /\
     Forall2
       (fun item elbs =>
          exists h info,
            In (CPostActivate (snd item)) h /\
            asg_info_json env h (snd item) = inr info /\
            elbs_of info elbs)
       (dict_items env new_asgs) lists) /\
  (exists t,
     emitted w4 (snd (deploy env ami_id w0)) =
       CWaitForHealthyElbs elbs_to_monitor 600 :: t).
Proof.
  intros ami_id w0 existing w1 new_asgs w2 w3 elbs w4 H1 H2 H3 H4. split.
  - destruct (activate_all_elbs _ _ _ _ _ H4) as (lists & E & F).
    now exists lists.
  - assert (D : deploy env ami_id w0 =
                (await_elbs env new_asgs elbs ;;
                 retire env (dict_items env existing)) w4).
    { unfold deploy. rewrite (bind_ret_eq _ _ _ _ _ H1).
      rewrite (bind_ret_eq _ _ _ _ _ H2). rewrite (bind_ret_eq _ _ _ _ _ H3).
      now rewrite (bind_ret_eq _ _ _ _ _ H4). }
    rewrite D.
    destruct (starts_await_and_retire new_asgs elbs
                (dict_items env existing) w4) as (t & E & _).
    exists t. now apply emitted_app.
Qed.

End Further.

(** * Further runs *)

Section FurtherRuns.

Import Scenario.

(** Evaluate the run on the left of an equation. *)
Ltac run := vm_compute; reflexivity.

Lemma wait_for_task_completion_does_not_retry_witness :
  fst (wait_for_task_completion
         (scripted [] [] (fun _ _ => inl connection_error) (inr tt))
         "task/1" 5 start) = Raise connection_error /\
  fst (wait_for_task_completion
         (scripted [] [] (fun _ _ => inr []) (inr tt))
         "task/1" 5 start) = Raise (KeyError "status").
Proof.
  split.
  - destruct (wait_for_task_completion_does_not_retry
                (scripted [] [] (fun _ _ => inl connection_error) (inr tt))
                "task/1" 5 start [CUtcnow; CUtcnow] []) as [A _];
      [run|].
    now destruct (A connection_error).
  - destruct (wait_for_task_completion_does_not_retry
                (scripted [] [] (fun _ _ => inr []) (inr tt))
                "task/1" 5 start [CUtcnow; CUtcnow] []) as [_ B];
      [run|].
    now destruct (B []).
Defined.

Lemma wait_for_task_completion_polls_json_handle_witness :
  json_url "task/1" = "task/1.json" /\
  json_url "task/1.json" = "task/1.json" /\
  Forall (eq "task/1.json")
    (polls (emitted start
              (snd (wait_for_task_completion never_done "task/1" 2 start)))).
Proof.
  destruct (wait_for_task_completion_polls_json_handle never_done "task/1" 2
              start) as (_ & Idem & App & All).
  split; [apply App; reflexivity|]. split; [exact Idem | exact All].
Defined.

Lemma clusters_for_asgs_rejects_malformed_record_witness :
  fst (clusters_for_asgs
         (scripted broken_listing two_clusters (tasks []) (inr tt))
         two_clusters start) = Raise BackendDataError.
Proof.
  rewrite (clusters_for_asgs_rejects_malformed_record
             (scripted broken_listing two_clusters (tasks []) (inr tt))
             two_clusters broken_listing start).
  - reflexivity.
  - reflexivity.
  - right. left. right. reflexivity.
Defined.

Lemma clusters_for_asgs_keeps_last_matching_record_witness :
  exists d,
    fst (clusters_for_asgs
           (scripted doubled_listing ["edx-edxapp-v010"] (tasks []) (inr tt))
           ["edx-edxapp-v010"] start) = Ret d /\
    dict_get "edx-edxapp" d = Some ["edx-edxapp-v010"; "edx-edxapp-v011"].
Proof.
  destruct (clusters_for_asgs_keeps_last_matching_record
              (scripted doubled_listing ["edx-edxapp-v010"] (tasks [])
                 (inr tt))
              ["edx-edxapp-v010"]
              [cluster_of "edx-edxapp" ["edx-edxapp-v010"]]
              (cluster_of "edx-edxapp" ["edx-edxapp-v010"; "edx-edxapp-v011"])
              [] "edx-edxapp" ["edx-edxapp-v010"; "edx-edxapp-v011"] start)
    as (d & R & G).
  - reflexivity.
  - repeat constructor; discriminate.
  - repeat split. exists "edx-edxapp-v010". split; now left.
  - intros r' groups' [].
  - exists d. rewrite R. now split.
Defined.

Lemma asgs_for_cluster_names_or_data_error_witness :
  fst (asgs_for_cluster one_cluster "edx-edxapp" start) =
    Ret ["edx-edxapp-v010"] /\
  fst (asgs_for_cluster
         (with_cluster_info one_cluster
            (fun _ _ => inr [record_of "edx-edxapp-v010";
                             {| rec_autoScalingGroupName := None |}]))
         "edx-edxapp" start) = Raise BackendDataError.
Proof.
  split.
  - destruct (asgs_for_cluster_names_or_data_error one_cluster "edx-edxapp"
                [record_of "edx-edxapp-v010"] start eq_refl) as (_ & A & _).
    now apply A.
  - destruct (asgs_for_cluster_names_or_data_error
                (with_cluster_info one_cluster
                   (fun _ _ => inr [record_of "edx-edxapp-v010";
                                    {| rec_autoScalingGroupName := None |}]))
                "edx-edxapp"
                [record_of "edx-edxapp-v010";
                 {| rec_autoScalingGroupName := None |}] start eq_refl)
      as (_ & _ & B).
    apply B. right. now left.
Defined.

Lemma disable_asg_reports_task_outcome_witness :
  fst (disable_asg one_cluster (PStr "edx-edxapp-v010") start) = Ret tt /\
  fst (disable_asg
         (scripted edxapp [] (tasks ["task/deactivate/edx-edxapp-v010.json"])
            (inr tt)) (PStr "edx-edxapp-v010") start) =
    Raise (BackendError (disable_failed_msg "boom")) /\
  fst (disable_asg (scripted edxapp [] failed_without_log (inr tt))
         (PStr "edx-edxapp-v010") start) = Raise (KeyError "log") /\
  fst (disable_asg never_done (PStr "edx-edxapp-v010") start) =
    Raise (TimeoutException
             "Timedout while waiting for task task/deactivate/edx-edxapp-v010.json").
Proof.
  split; [|split; [|split]].
  - destruct (disable_asg_reports_task_outcome one_cluster
                (PStr "edx-edxapp-v010") start _ eq_refl) as (A & _).
    erewrite A; [reflexivity | run | reflexivity | discriminate].
  - destruct (disable_asg_reports_task_outcome
                (scripted edxapp []
                   (tasks ["task/deactivate/edx-edxapp-v010.json"]) (inr tt))
                (PStr "edx-edxapp-v010") start _ eq_refl) as (_ & B & _).
    edestruct B as [R _]; [run | reflexivity | reflexivity |].
    rewrite R. reflexivity.
  - destruct (disable_asg_reports_task_outcome
                (scripted edxapp [] failed_without_log (inr tt))
                (PStr "edx-edxapp-v010") start _ eq_refl) as (_ & _ & C & _).
    erewrite C; [reflexivity | run | reflexivity | reflexivity].
  - destruct (disable_asg_reports_task_outcome never_done
                (PStr "edx-edxapp-v010") start _ eq_refl) as (_ & _ & _ & D).
    erewrite D; [reflexivity | run].
Defined.

Lemma enable_asg_reports_task_outcome_witness :
  fst (enable_asg one_cluster "edx-edxapp-v011" start) = Ret tt /\
  fst (enable_asg
         (scripted edxapp [] (tasks ["task/activate/edx-edxapp-v011.json"])
            (inr tt)) "edx-edxapp-v011" start) =
    Raise (BackendError (enable_failed_msg "boom")) /\
  fst (enable_asg (scripted edxapp [] failed_without_log (inr tt))
         "edx-edxapp-v011" start) = Raise (KeyError "log") /\
  fst (enable_asg never_done "edx-edxapp-v011" start) =
    Raise (TimeoutException
             "Timedout while waiting for task task/activate/edx-edxapp-v011.json").
Proof.
  split; [|split; [|split]].
  - destruct (enable_asg_reports_task_outcome one_cluster
                "edx-edxapp-v011" start _ eq_refl) as (A & _).
    erewrite A; [reflexivity | run | reflexivity | discriminate].
  - destruct (enable_asg_reports_task_outcome
                (scripted edxapp []
                   (tasks ["task/activate/edx-edxapp-v011.json"]) (inr tt))
                "edx-edxapp-v011" start _ eq_refl) as (_ & B & _).
    edestruct B as [R _]; [run | reflexivity | reflexivity |].
    rewrite R. reflexivity.
  - destruct (enable_asg_reports_task_outcome
                (scripted edxapp [] failed_without_log (inr tt))
                "edx-edxapp-v011" start _ eq_refl) as (_ & _ & C & _).
    erewrite C; [reflexivity | run | reflexivity | reflexivity].
  - destruct (enable_asg_reports_task_outcome never_done
                "edx-edxapp-v011" start _ eq_refl) as (_ & _ & _ & D).
    erewrite D; [reflexivity | run].
Defined.

Lemma new_asg_raises_on_unusable_group_list_witness :
  fst (new_asg (with_cluster_info one_cluster (fun _ _ => inr []))
         "edx-edxapp" "ami-1" start) = Raise IndexError /\
  fst (new_asg
         (with_cluster_info one_cluster
            (fun _ _ => inr [{| rec_autoScalingGroupName := None |}]))
         "edx-edxapp" "ami-1" start) = Raise BackendDataError.
Proof.
  split.
  - edestruct (new_asg_raises_on_unusable_group_list
                 (with_cluster_info one_cluster (fun _ _ => inr []))
                 "edx-edxapp" "ami-1" start) as [A _];
      [reflexivity | run | reflexivity | discriminate | reflexivity |].
    rewrite A; reflexivity.
  - edestruct (new_asg_raises_on_unusable_group_list
                 (with_cluster_info one_cluster
                    (fun _ _ => inr [{| rec_autoScalingGroupName := None |}]))
                 "edx-edxapp" "ami-1" start) as [_ B];
      [reflexivity | run | reflexivity | discriminate | reflexivity |].
    rewrite B; [reflexivity | now left].
Defined.

Lemma new_asg_passes_on_failures_witness :
  fst (new_asg (with_new_asg one_cluster (fun _ _ _ => inl connection_error))
         "edx-edxapp" "ami-1" start) = Raise connection_error /\
  (exists w2,
     new_asg never_done "edx-edxapp" "ami-1" start =
       (Raise (TimeoutException
                 "Timedout while waiting for task task/create/edx-edxapp.json"),
        w2) /\
     cluster_queries (emitted start w2) = []).
Proof.
  split.
  - destruct (new_asg_passes_on_failures
                (with_new_asg one_cluster (fun _ _ _ => inl connection_error))
                "edx-edxapp" "ami-1" start) as [A _].
    rewrite (A connection_error eq_refl). reflexivity.
  - destruct (new_asg_passes_on_failures never_done "edx-edxapp" "ami-1"
                start) as [_ B].
    eexists. eapply B; [reflexivity | run].
Defined.

Lemma deploy_changes_nothing_when_discovery_fails_witness :
  exists w1,
    deploy (scripted broken_listing two_clusters (tasks []) (inr tt)) "ami-1"
      start = (Raise BackendDataError, w1) /\
    requests (emitted start w1) = [].
Proof.
  eexists.
  apply (deploy_changes_nothing_when_discovery_fails
           (scripted broken_listing two_clusters (tasks []) (inr tt))
           "ami-1" start).
  run.
Defined.

Lemma deploy_leaves_new_asgs_when_instances_unhealthy_witness :
  exists w3,
    deploy (with_in_service all_well (inl gate_timeout)) "ami-1" start =
      (Raise gate_timeout, w3) /\
    requests (emitted start w3) =
      [CPostNewAsg "edx-edxapp" "ami-1"; CPostNewAsg "edx-worker" "ami-1"] /\
    activations (emitted start w3) = [] /\
    deactivations (emitted start w3) = [].
Proof.
  edestruct (deploy_leaves_new_asgs_when_instances_unhealthy
               (with_in_service all_well (inl gate_timeout)) "ami-1" start)
    as (R & Q & A & D); [run | run | run |].
  eexists. split; [exact R|]. split; [exact Q|]. split; [exact A | exact D].
Defined.

Lemma deploy_requests_in_order_witness :
  exists w6,
    deploy all_well "ami-1" start = (Ret tt, w6) /\
    requests (emitted start w6) =
      [CPostNewAsg "edx-edxapp" "ami-1"; CPostNewAsg "edx-worker" "ami-1";
       CPostActivate "edx-edxapp-v011"; CPostActivate "edx-worker-v011";
       CPostDeactivate (PList ["edx-edxapp-v010"]);
       CPostDeactivate (PList ["edx-worker-v004"])].
Proof.
  edestruct (deploy_requests_in_order all_well "ami-1" start) as (R & Q);
    [run | run | run | run | run | run |].
  eexists. split; [exact R | exact Q].
Defined.

Lemma deploy_without_clusters_witness :
  deploy (scripted edxapp_worker [] (tasks []) (inr tt)) "ami-1" start =
    (wait_for_in_service (scripted edxapp_worker [] (tasks []) (inr tt))
       [] 300 ;;
     wait_for_healthy_elbs (scripted edxapp_worker [] (tasks []) (inr tt))
       [] 600)%monad
      (snd (discover (scripted edxapp_worker [] (tasks []) (inr tt)) "ami-1"
              start)) /\
  requests (emitted start
              (snd (deploy (scripted edxapp_worker [] (tasks []) (inr tt))
                      "ami-1" start))) = [].
Proof.
  apply (deploy_without_clusters
           (scripted edxapp_worker [] (tasks []) (inr tt)) "ami-1" start).
  run.
Defined.

Lemma create_all_makes_one_group_per_cluster_witness :
  exists new_asgs : dict string,
    fst (create_all all_well "ami-1" ["edx-edxapp"; "edx-worker"]
           (snd (discover all_well "ami-1" start))) = Ret new_asgs /\
    map fst new_asgs = ["edx-edxapp"; "edx-worker"] /\
    NoDup (map fst new_asgs).
Proof.
  edestruct (create_all_makes_one_group_per_cluster all_well "ami-1" start)
    as (K & _ & ND & _); [run | run |].
  eexists. split; [run|]. split; [exact K | exact ND].
Defined.

Lemma deploy_retires_only_after_elbs_healthy_witness :
  exists before elbs after,
    firstn 15 (trace (snd (deploy one_cluster "ami-1" start))) =
      before ++ CWaitForHealthyElbs elbs 600 :: after.
Proof.
  destruct (deploy_retires_only_after_elbs_healthy one_cluster "ami-1" start
              (firstn 15 (trace (snd (deploy one_cluster "ami-1" start))))
              ["edx-edxapp-v010"]
              (skipn 16 (trace (snd (deploy one_cluster "ami-1" start)))))
    as (before & elbs & after & E & _).
  - run.
  - now exists before, elbs, after.
Defined.

Lemma deploy_rolls_back_only_activated_asgs_witness :
  In (CPostActivate "edx-edxapp-v011")
    (firstn 25
       (trace (snd (deploy (scripted edxapp_worker two_clusters (tasks [])
                              (inl gate_timeout)) "ami-1" start)))).
Proof.
  apply (deploy_rolls_back_only_activated_asgs
           (scripted edxapp_worker two_clusters (tasks []) (inl gate_timeout))
           "ami-1" start _ "edx-edxapp-v011"
           (skipn 26
              (trace (snd (deploy (scripted edxapp_worker two_clusters
                                     (tasks []) (inl gate_timeout))
                             "ami-1" start))))).
  run.
Defined.

Lemma deploy_watches_the_load_balancers_witness :
  exists t,
    emitted
      (snd (activate_all all_well
              [("edx-edxapp", "edx-edxapp-v011");
               ("edx-worker", "edx-worker-v011")]
              (snd (wait_for_in_service all_well
                      ["edx-edxapp-v011"; "edx-worker-v011"] 300
                      (snd (create_all all_well "ami-1"
                              ["edx-edxapp"; "edx-worker"]
                              (snd (discover all_well "ami-1" start))))))))
      (snd (deploy all_well "ami-1" start)) =
    CWaitForHealthyElbs ["edx-edxapp-v011-elb"; "edx-worker-v011-elb"] 600
      :: t.
Proof.
  edestruct (deploy_watches_the_load_balancers_of_the_new_asgs all_well
               "ami-1" start) as (_ & t & E); [run | run | run | run |].
  exists t. exact E.
Defined.

End FurtherRuns.
